(** * IDBFactoryBackendProxy: the worker-thread permission rendezvous

    A model of [IDBFactoryBackendProxy.cpp] (WebKit r115846, chromium port):
    the class [AllowIndexedDBMainThreadBridge], the blocking check
    [IDBFactoryBackendProxy::allowIDBFromWorkerThread] with its caller
    [openFromWorker], and the frame based entry points [open],
    [deleteDatabase] and [getDatabaseNames].

    Two threads take part in a check.  The worker thread constructs a bridge,
    parks in [WorkerRunLoop::runInMode] and afterwards either cancels the
    bridge or reads its result; the main thread runs [allowIndexedDBTask] and
    [signalCompleted].  The model is a transition system whose steps are the
    atomic actions of the two threads (a mutex acquisition, one field access,
    one queue operation), plus the external termination of the run loop.  A
    schedule is a list of labels saying who moves next; every property below
    quantifies over all schedules. *)

From stdpp Require Import base option list sets strings pretty.
From Stdlib Require Import NArith Lia.

Open Scope string_scope.

(** ** Data model *)

Inductive thread := WorkerThread | MainThread.

Global Instance thread_eq_dec : EqDecision thread.
Proof. solve_decision. Defined.

(** [WebCommonWorkerClient::allowIndexedDB(name)], the permission predicate
    evaluated on the main thread. *)
Record WebCommonWorkerClient := { allowIndexedDB : string → bool }.

(** [WebWorkerBase]: [commonClient()] may return a null pointer. *)
Record WebWorkerBase := { commonClient : option WebCommonWorkerClient }.

(** The three data members of [AllowIndexedDBMainThreadBridge] (lines 144-161).
    [m_mutex] holds the thread that owns the mutex, if any; the pointer
    [m_webWorkerBase] is [None] when null. *)
Record AllowIndexedDBMainThreadBridge := Bridge {
  m_result : bool;
  m_mutex : option thread;
  m_webWorkerBase : option WebWorkerBase
}.

(** Bridges live in a store and are named by their index: the tasks below hold
    a [PassRefPtr] to the bridge, that is, they share it. *)
Abbreviation bridge_ref := nat.

(** The task created at line 126 for the main thread. *)
Inductive MainTask :=
| AllowIndexedDBTask (bridge : bridge_ref)
    (commonClient : option WebCommonWorkerClient) (name mode : string).

(** The task created at line 115 for the worker context. *)
Inductive WorkerTask :=
| DidComplete (bridge : bridge_ref) (result : bool).

Inductive MessageQueueWaitResult :=
| MessageQueueTerminated
| MessageQueueMessageReceived.

(** Modelled from the spec: the worker's task loop ([WorkerRunLoop], declared
    in WorkerRunLoop.h, which is not part of the sources at hand).  It owns a
    queue of tasks, each tagged with the mode it was posted for, can be torn
    down externally, and hands out "a monotonically increasing counter
    scoped to the requester's task loop". *)
Record WorkerRunLoop := RunLoop {
  m_messageQueue : list (WorkerTask * string);
  m_killed : bool;
  m_uniqueId : N
}.

(** Line 89. *)
Definition allowIndexedDBMode : string := "allowIndexedDBMode".

(** What a call hands to its collaborators: [IDBCallbacks::onError] with a
    [WebIDBDatabaseError(code, message)], or one of the calls on
    [m_webIDBFactory].  [webFrame] is [None] for the null frame. *)
Inductive Effect :=
| OnError (code : nat) (message : string)
| FactoryOpen (name : string) (webFrame : option nat) (dataDir : string)
| FactoryDeleteDatabase (name : string) (webFrame : option nat) (dataDir : string)
| FactoryGetDatabaseNames (webFrame : option nat) (dataDir : string).

Definition deniedMessage : string :=
  "The user denied permission to access the database.".

(** ** The bridge's methods, one atomic action each *)

(** [MutexLocker locker(m_mutex)]: the constructor acquires the mutex and
    blocks ([None]) while another holder has it. *)
Definition lock (t : thread) (br : AllowIndexedDBMainThreadBridge)
  : option AllowIndexedDBMainThreadBridge :=
  match m_mutex br with
  | None => Some (Bridge (m_result br) (Some t) (m_webWorkerBase br))
  | Some _ => None
  end.

(** The destructor of the [MutexLocker] at the end of the method. *)
Definition unlock (br : AllowIndexedDBMainThreadBridge) : AllowIndexedDBMainThreadBridge :=
  Bridge (m_result br) None (m_webWorkerBase br).

Definition holds (t : thread) (br : AllowIndexedDBMainThreadBridge) : bool :=
  bool_decide (m_mutex br = Some t).

(** The constructor's initialisers, lines 120-121. *)
Definition newBridge (webWorkerBase : WebWorkerBase) : AllowIndexedDBMainThreadBridge :=
  Bridge false None (Some webWorkerBase).

(** [cancel], line 102: [m_webWorkerBase = 0]. *)
Definition cancel_clear (br : AllowIndexedDBMainThreadBridge) : AllowIndexedDBMainThreadBridge :=
  Bridge (m_result br) (m_mutex br) None.

(** [result], line 107. *)
Definition result (br : AllowIndexedDBMainThreadBridge) : bool := m_result br.

(** [didComplete], line 141: [bridge->m_result = result]. *)
Definition didComplete (result : bool) (br : AllowIndexedDBMainThreadBridge)
  : AllowIndexedDBMainThreadBridge :=
  Bridge result (m_mutex br) (m_webWorkerBase br).

(** [signalCompleted], lines 114-115: the task handed to
    [postTaskForModeToWorkerContext], if the back-reference is not null. *)
Definition signalCompleted_post (b : bridge_ref) (result : bool) (mode : string)
    (br : AllowIndexedDBMainThreadBridge) : option (WorkerTask * string) :=
  match m_webWorkerBase br with
  | Some _ => Some (DidComplete b result, mode)
  | None => None
  end.

(** [allowIndexedDBTask], lines 131-136: the boolean it passes to
    [signalCompleted]. *)
Definition allowIndexedDBTask (commonClient : option WebCommonWorkerClient)
    (name : string) : bool :=
  match commonClient with
  | None => false
  | Some client => allowIndexedDB client name
  end.

(** [cancel] as one uninterrupted call by thread [t] (lines 99-103). *)
Definition cancel (t : thread) (br : AllowIndexedDBMainThreadBridge)
  : option AllowIndexedDBMainThreadBridge :=
  br' ← lock t br; Some (unlock (cancel_clear br')).

(** [signalCompleted] as one uninterrupted call by thread [t] (lines 111-116):
    the bridge afterwards and the task posted. *)
Definition signalCompleted (t : thread) (b : bridge_ref) (result : bool) (mode : string)
    (br : AllowIndexedDBMainThreadBridge)
  : option (AllowIndexedDBMainThreadBridge * option (WorkerTask * string)) :=
  br' ← lock t br; Some (unlock br', signalCompleted_post b result mode br').

(** ** The run loop *)

(** Modelled from the spec: [WorkerRunLoop::createUniqueId], "a fresh counter
    value from the loop", "monotonically increasing". *)
Definition createUniqueId (rl : WorkerRunLoop) : N * WorkerRunLoop :=
  let id := (m_uniqueId rl + 1)%N in
  (id, RunLoop (m_messageQueue rl) (m_killed rl) id).

(** Modelled from the spec: [postTaskForModeToWorkerContext] places the task,
    "tagged with the same wait-channel id", at the end of the loop's queue. *)
Definition postTaskForMode (t : WorkerTask * string) (rl : WorkerRunLoop) : WorkerRunLoop :=
  RunLoop (m_messageQueue rl ++ [t]) (m_killed rl) (m_uniqueId rl).

(** The first task of the queue posted for [mode], and the queue without it. *)
Fixpoint takeForMode (mode : string) (q : list (WorkerTask * string))
  : option (WorkerTask * list (WorkerTask * string)) :=
  match q with
  | [] => None
  | (t, m) :: q' =>
      if decide (m = mode) then Some (t, q')
      else '(t', q'') ← takeForMode mode q'; Some (t', (t, m) :: q'')
  end.

(** Modelled from the spec: [WorkerRunLoop::runInMode(context, mode)].  "Only
    tasks explicitly tagged with the wait-channel id are dispatched; all other
    queued work is deferred"; the call ends because "a tagged completion task
    ran" or because "the loop's underlying queue was torn down externally".
    [None]: neither has happened yet and the thread stays parked. *)
Definition runInMode (mode : string) (rl : WorkerRunLoop)
  : option (MessageQueueWaitResult * option WorkerTask * WorkerRunLoop) :=
  if m_killed rl then Some (MessageQueueTerminated, None, rl)
  else '(t, q) ← takeForMode mode (m_messageQueue rl);
       Some (MessageQueueMessageReceived, Some t, RunLoop q (m_killed rl) (m_uniqueId rl)).

(** External teardown of the loop's queue. *)
Definition terminate (rl : WorkerRunLoop) : WorkerRunLoop :=
  RunLoop (m_messageQueue rl) true (m_uniqueId rl).

(** ** [openFromWorker] after the check

    Lines 187-191: what [openFromWorker] does once
    [allowIDBFromWorkerThread] has returned [allowed]. *)
Definition openFromWorker_finish (allowed : bool) (name dataDir : string) : Effect :=
  if negb allowed then OnError 0 deniedMessage
  else FactoryOpen name None dataDir.

(** ** The frame based entry points

    [permissionClient] is [webView->permissionClient()], possibly null; its
    [allowIndexedDB(webFrame, name, origin)] is a predicate on the name. *)
Record WebPermissionClient := { frameAllowIndexedDB : string → bool }.

(** Lines 195-206. *)
Definition open (permissionClient : option WebPermissionClient)
    (name : string) (webFrame : nat) (dataDir : string) : Effect :=
  match permissionClient with
  | Some client =>
      if negb (frameAllowIndexedDB client name) then OnError 0 deniedMessage
      else FactoryOpen name (Some webFrame) dataDir
  | None => FactoryOpen name (Some webFrame) dataDir
  end.

(** Lines 208-219. *)
Definition deleteDatabase (permissionClient : option WebPermissionClient)
    (name : string) (webFrame : nat) (dataDir : string) : Effect :=
  match permissionClient with
  | Some client =>
      if negb (frameAllowIndexedDB client name) then OnError 0 deniedMessage
      else FactoryDeleteDatabase name (Some webFrame) dataDir
  | None => FactoryDeleteDatabase name (Some webFrame) dataDir
  end.

(** Lines 75-87; the name shown to the permission client is fixed. *)
Definition getDatabaseNames (permissionClient : option WebPermissionClient)
    (webFrame : nat) (dataDir : string) : Effect :=
  match permissionClient with
  | Some client =>
      if negb (frameAllowIndexedDB client "Database Listing") then OnError 0 deniedMessage
      else FactoryGetDatabaseNames (Some webFrame) dataDir
  | None => FactoryGetDatabaseNames (Some webFrame) dataDir
  end.

(** ** The two threads as a transition system *)

(** One call [openFromWorker(name, callbacks, origin, context, dataDir)]. *)
Record OpenRequest := { req_name : string; req_dataDir : string }.

Inductive field := Result_field | WebWorkerBase_field.
Inductive access := Read | Write.

(** The history of an execution, newest event first.  [EvAccess t b f a locked]:
    thread [t] read or wrote field [f] of bridge [b] after its construction,
    and [locked] tells whether [t] owned the bridge's mutex at that moment. *)
Inductive event :=
| EvCreate (b : bridge_ref) (name mode : string)
| EvDispatch (b : bridge_ref)
| EvAccess (t : thread) (b : bridge_ref) (f : field) (a : access) (locked : bool)
| EvPost (b : bridge_ref) (result : bool) (mode : string)
| EvPerform (waiting : bridge_ref) (task : WorkerTask)
| EvWait (b : bridge_ref) (r : MessageQueueWaitResult)
| EvReturn (b : bridge_ref) (allowed : bool)
| EvEffect (b : bridge_ref) (e : Effect).

(** Where the worker thread stands inside [openFromWorker]. *)
Inductive WorkerPC :=
| WIdle
| WRunInMode (b : bridge_ref) (mode : string) (req : OpenRequest)
| WCancelLock (b : bridge_ref) (req : OpenRequest)
| WCancelClear (b : bridge_ref) (req : OpenRequest)
| WCancelUnlock (b : bridge_ref) (req : OpenRequest)
| WResult (b : bridge_ref) (req : OpenRequest).

(** Where the main thread stands inside [allowIndexedDBTask]. *)
Inductive MainPC :=
| MIdle
| MSignalLock (b : bridge_ref) (result : bool) (mode : string)
| MSignalTest (b : bridge_ref) (result : bool) (mode : string)
| MSignalUnlock (b : bridge_ref).

Record State := St {
  heap : list AllowIndexedDBMainThreadBridge;
  runLoop : WorkerRunLoop;
  mainQueue : list MainTask;
  worker : WorkerPC;
  pending : list OpenRequest;
  main : MainPC;
  trace : list event
}.

Inductive label := StepWorker | StepMain | Kill.

Section System.

(** The object behind [workerContext->thread()->workerLoaderProxy()], and the
    build flag of line 185. *)
Variable webWorkerBase : WebWorkerBase.
Variable ENABLE_WORKERS : bool.

(** Lines 167-172 and the constructor, lines 119-127: up to the moment the
    bridge is shared with the main thread nobody else can see it, so the
    worker does all of it in one move. *)
Definition allowIDBFromWorkerThread_begin (req : OpenRequest) (rest : list OpenRequest)
    (s : State) : State :=
  let '(id, rl) := createUniqueId (runLoop s) in
  let mode := allowIndexedDBMode +:+ pretty id in
  let b := length (heap s) in
  St (heap s ++ [newBridge webWorkerBase]) rl
     (mainQueue s ++ [AllowIndexedDBTask b (commonClient webWorkerBase) (req_name req) mode])
     (WRunInMode b mode req) rest (main s)
     (EvDispatch b :: EvCreate b (req_name req) mode :: trace s).

(** The end of [allowIDBFromWorkerThread] with value [allowed], followed by
    lines 187-191 of [openFromWorker]. *)
Definition returnToOpenFromWorker (b : bridge_ref) (allowed : bool) (req : OpenRequest)
    (tr : list event) : list event :=
  EvEffect b (openFromWorker_finish allowed (req_name req) (req_dataDir req))
    :: EvReturn b allowed :: tr.

Definition worker_step (s : State) : option State :=
  match worker s with
  | WIdle =>
      match pending s with
      | [] => None
      | req :: rest =>
          if ENABLE_WORKERS then Some (allowIDBFromWorkerThread_begin req rest s)
          else Some (St (heap s) (runLoop s) (mainQueue s) WIdle rest (main s) (trace s))
      end
  | WRunInMode b mode req =>
      (* line 175 *)
      match runInMode mode (runLoop s) with
      | None => None
      | Some (MessageQueueTerminated, _, rl) =>
          Some (St (heap s) rl (mainQueue s) (WCancelLock b req) (pending s) (main s)
                   (EvWait b MessageQueueTerminated :: trace s))
      | Some (MessageQueueMessageReceived, None, rl) =>
          Some (St (heap s) rl (mainQueue s) (WResult b req) (pending s) (main s)
                   (EvWait b MessageQueueMessageReceived :: trace s))
      | Some (MessageQueueMessageReceived, Some (DidComplete b' r), rl) =>
          br ← heap s !! b';
          Some (St (<[b' := didComplete r br]> (heap s)) rl (mainQueue s)
                   (WResult b req) (pending s) (main s)
                   (EvWait b MessageQueueMessageReceived
                      :: EvAccess WorkerThread b' Result_field Write (holds WorkerThread br)
                      :: EvPerform b (DidComplete b' r) :: trace s))
      end
  | WCancelLock b req =>
      (* line 101 *)
      br ← heap s !! b;
      br' ← lock WorkerThread br;
      Some (St (<[b := br']> (heap s)) (runLoop s) (mainQueue s)
               (WCancelClear b req) (pending s) (main s) (trace s))
  | WCancelClear b req =>
      (* line 102 *)
      br ← heap s !! b;
      Some (St (<[b := cancel_clear br]> (heap s)) (runLoop s) (mainQueue s)
               (WCancelUnlock b req) (pending s) (main s)
               (EvAccess WorkerThread b WebWorkerBase_field Write (holds WorkerThread br)
                  :: trace s))
  | WCancelUnlock b req =>
      (* line 103, then line 177 *)
      br ← heap s !! b;
      Some (St (<[b := unlock br]> (heap s)) (runLoop s) (mainQueue s)
               WIdle (pending s) (main s)
               (returnToOpenFromWorker b false req (trace s)))
  | WResult b req =>
      (* line 180 *)
      br ← heap s !! b;
      Some (St (heap s) (runLoop s) (mainQueue s) WIdle (pending s) (main s)
               (returnToOpenFromWorker b (result br) req
                  (EvAccess WorkerThread b Result_field Read (holds WorkerThread br)
                     :: trace s)))
  end.

Definition main_step (s : State) : option State :=
  match main s with
  | MIdle =>
      (* the next task of the main thread: lines 129-137 up to the call of
         signalCompleted *)
      match mainQueue s with
      | [] => None
      | AllowIndexedDBTask b client name mode :: rest =>
          Some (St (heap s) (runLoop s) rest (worker s) (pending s)
                   (MSignalLock b (allowIndexedDBTask client name) mode) (trace s))
      end
  | MSignalLock b r mode =>
      (* line 113 *)
      br ← heap s !! b;
      br' ← lock MainThread br;
      Some (St (<[b := br']> (heap s)) (runLoop s) (mainQueue s) (worker s) (pending s)
               (MSignalTest b r mode) (trace s))
  | MSignalTest b r mode =>
      (* lines 114-115 *)
      br ← heap s !! b;
      let tested := EvAccess MainThread b WebWorkerBase_field Read (holds MainThread br) in
      match signalCompleted_post b r mode br with
      | Some task =>
          Some (St (heap s) (postTaskForMode task (runLoop s)) (mainQueue s) (worker s)
                   (pending s) (MSignalUnlock b)
                   (EvPost b r mode :: tested :: trace s))
      | None =>
          Some (St (heap s) (runLoop s) (mainQueue s) (worker s) (pending s)
                   (MSignalUnlock b) (tested :: trace s))
      end
  | MSignalUnlock b =>
      (* line 116 *)
      br ← heap s !! b;
      Some (St (<[b := unlock br]> (heap s)) (runLoop s) (mainQueue s) (worker s) (pending s)
               MIdle (trace s))
  end.

Definition kill_step (s : State) : State :=
  St (heap s) (terminate (runLoop s)) (mainQueue s) (worker s) (pending s) (main s) (trace s).

Definition step (l : label) (s : State) : option State :=
  match l with
  | StepWorker => worker_step s
  | StepMain => main_step s
  | Kill => Some (kill_step s)
  end.

(** A schedule is run from left to right; it fails where it asks a parked or
    idle thread to move. *)
Fixpoint exec (sched : list label) (s : State) : option State :=
  match sched with
  | [] => Some s
  | l :: sched' => s' ← step l s; exec sched' s'
  end.

(** The worker is about to make the calls [requests], the loop's counter
    stands at [id0], nothing is queued. *)
Definition init (id0 : N) (requests : list OpenRequest) : State :=
  St [] (RunLoop [] false id0) [] WIdle requests MIdle [].

Definition run (id0 : N) (requests : list OpenRequest) (sched : list label) : option State :=
  exec sched (init id0 requests).

(** ** Reading the history *)

Definition ev_bridge (e : event) : bridge_ref :=
  match e with
  | EvCreate b _ _ | EvDispatch b | EvAccess _ b _ _ _ | EvPost b _ _
  | EvPerform b _ | EvWait b _ | EvReturn b _ | EvEffect b _ => b
  end.

(** The write of line 102 as it appears in the history. *)
Definition cleared (b : bridge_ref) (tr : list event) : Prop :=
  ∃ locked, EvAccess WorkerThread b WebWorkerBase_field Write locked ∈ tr.

(** A completion on its way to the requester: the task posted at line 115,
    or the write of line 141. *)
Definition delivery (b : bridge_ref) (e : event) : Prop :=
  (∃ r mode, e = EvPost b r mode) ∨ (∃ t l, e = EvAccess t b Result_field Write l).

(** Nothing is delivered for a bridge once line 102 has run for it. *)
Fixpoint dropped_after_cancel (tr : list event) : Prop :=
  match tr with
  | [] => True
  | e :: older => (∀ b, delivery b e → ¬ cleared b older) ∧ dropped_after_cancel older
  end.

(** Counting the elements of a list that satisfy a test. *)
Fixpoint count {A : Type} (f : A → bool) (l : list A) : nat :=
  match l with
  | [] => 0
  | x :: l' => (if f x then 1 else 0) + count f l'
  end.

Definition is_task_for (b : bridge_ref) (t : MainTask) : bool :=
  match t with AllowIndexedDBTask b' _ _ _ => bool_decide (b' = b) end.

Definition is_completion_for (b : bridge_ref) (t : WorkerTask * string) : bool :=
  match t with (DidComplete b' _, _) => bool_decide (b' = b) end.

Definition is_result_write (b : bridge_ref) (e : event) : bool :=
  match e with
  | EvAccess _ b' Result_field Write _ => bool_decide (b' = b)
  | _ => false
  end.

Definition signalling (m : MainPC) (b : bridge_ref) : nat :=
  match m with
  | MSignalLock b' _ _ | MSignalTest b' _ _ => if bool_decide (b' = b) then 1 else 0
  | _ => 0
  end.

Definition result_writes (b : bridge_ref) (s : State) : nat :=
  count (is_result_write b) (trace s).

(** The ways in which a completion for bridge [b] can still be under way or
    have arrived: its task waits for the main thread, the main thread is
    inside [signalCompleted] before line 115, the completion task waits in
    the loop's queue, or line 141 has run. *)
Definition tokens (s : State) (b : bridge_ref) : nat :=
  count (is_task_for b) (mainQueue s) + signalling (main s) b
  + count (is_completion_for b) (m_messageQueue (runLoop s))
  + result_writes b s.

(** The wait-channel id of the [b]-th bridge made on a loop whose counter
    started at [id0]. *)
Definition modeOf (id0 : N) (b : bridge_ref) : string :=
  allowIndexedDBMode +:+ pretty (id0 + N.of_nat b + 1)%N.

(** The owner of a bridge's mutex, read off the two program counters. *)
Definition worker_holds (w : WorkerPC) (b : bridge_ref) : bool :=
  match w with
  | WCancelClear b' _ | WCancelUnlock b' _ => bool_decide (b' = b)
  | _ => false
  end.

Definition main_holds (m : MainPC) (b : bridge_ref) : bool :=
  match m with
  | MSignalTest b' _ _ | MSignalUnlock b' => bool_decide (b' = b)
  | _ => false
  end.

Definition owner (w : WorkerPC) (m : MainPC) (b : bridge_ref) : option thread :=
  if worker_holds w b then Some WorkerThread
  else if main_holds m b then Some MainThread
  else None.

(** What the main thread answers for [name]. *)
Definition answer (name : string) : bool :=
  allowIndexedDBTask (commonClient webWorkerBase) name.

End System.


(** ** Scenarios *)

(** A client that grants the name "inbox" and nothing else. *)
Definition grantInbox : WebCommonWorkerClient :=
  {| allowIndexedDB := λ name, bool_decide (name = "inbox") |}.

Definition workerWithClient : WebWorkerBase := {| commonClient := Some grantInbox |}.
Definition workerWithoutClient : WebWorkerBase := {| commonClient := None |}.

Definition inbox : OpenRequest := {| req_name := "inbox"; req_dataDir := "/idb" |}.
Definition outbox : OpenRequest := {| req_name := "outbox"; req_dataDir := "/idb" |}.

(** The worker starts the check, the main thread answers, the worker wakes
    and returns. *)
Definition answered : list label :=
  [StepWorker; StepMain; StepMain; StepMain; StepMain; StepWorker; StepWorker].

(** The loop is torn down while the main thread has the task in hand; the
    worker cancels, the main thread finishes its [signalCompleted] first. *)
Definition tornDown : list label :=
  [StepWorker; StepMain; StepMain; Kill; StepWorker; StepMain; StepMain;
   StepWorker; StepWorker; StepWorker].

(** The loop is torn down and the worker cancels before the main thread has
    looked at the task; the main thread runs it afterwards. *)
Definition tornDownEarly : list label :=
  [StepWorker; Kill; StepWorker; StepWorker; StepWorker; StepWorker;
   StepMain; StepMain; StepMain; StepMain].

(** * Proofs *)

(** ** The queue *)

Lemma takeForMode_elem mode q t q' :
  takeForMode mode q = Some (t, q') →
  (t, mode) ∈ q ∧ (∀ x, x ∈ q' → x ∈ q).
Proof.
  revert t q'. induction q as [|[t0 m0] q IH]; intros t q' H; simpl in H; [done|].
  destruct (decide (m0 = mode)) as [->|Hne].
  - inversion H; subst. split; [left|]. intros x Hx. by right.
  - destruct (takeForMode mode q) as [[t1 q1]|] eqn:E; simpl in H; [|done].
    inversion H; subst. destruct (IH _ _ eq_refl) as [H1 H2]. split; [by right|].
    intros x Hx. apply elem_of_cons in Hx as [->|Hx]; [left|right; auto].
Qed.

Lemma runInMode_inv mode rl r t rl' :
  runInMode mode rl = Some (r, t, rl') →
  (m_killed rl = true ∧ r = MessageQueueTerminated ∧ t = None ∧ rl' = rl) ∨
  (m_killed rl = false ∧ r = MessageQueueMessageReceived ∧
   ∃ t' q', t = Some t' ∧ takeForMode mode (m_messageQueue rl) = Some (t', q') ∧
            rl' = RunLoop q' (m_killed rl) (m_uniqueId rl)).
Proof.
  unfold runInMode. destruct (m_killed rl); intros H.
  - left. by inversion H.
  - right. destruct (takeForMode mode (m_messageQueue rl)) as [[t' q']|]; simpl in H; [|done].
    inversion H; subst. eauto 10.
Qed.

Lemma count_app {A} (f : A → bool) l1 l2 :
  count f (l1 ++ l2) = count f l1 + count f l2.
Proof. induction l1 as [|x l1 IH]; simpl; [done|]. rewrite IH. lia. Qed.

Lemma takeForMode_count (f : WorkerTask * string → bool) mode q t q' :
  takeForMode mode q = Some (t, q') →
  count f q = (if f (t, mode) then 1 else 0) + count f q'.
Proof.
  revert t q'. induction q as [|[t0 m0] q IH]; intros t q' H; simpl in H; [done|].
  destruct (decide (m0 = mode)) as [->|Hne].
  - by inversion H; subst.
  - destruct (takeForMode mode q) as [[t1 q1]|] eqn:E; simpl in H; [|done].
    inversion H; subst. simpl. rewrite (IH _ _ eq_refl). lia.
Qed.

(** ** Inverting a step *)

Ltac inv_some :=
  repeat match goal with
  | H : Some _ = Some _ |- _ => inversion H; subst; clear H
  | H : None = Some _ |- _ => discriminate H
  | H : mbind _ ?o = Some _ |- _ =>
      let E := fresh "E" in destruct o eqn:E; simpl in H; [|discriminate H]
  | H : context [match m_webWorkerBase ?br with Some _ => _ | None => _ end] |- _ =>
      match type of H with
      | _ = Some _ => let E := fresh "Ewwb" in destruct (m_webWorkerBase br) eqn:E; simpl in H
      end
  end.

(** Membership in a history that was extended by a few events. *)
Ltac elems :=
  repeat match goal with
  | H : _ ∈ [] |- _ => apply elem_of_nil in H; destruct H
  | H : _ ∈ _ :: _ |- _ => apply elem_of_cons in H as [H|H]; [try discriminate H; simplify_eq|]
  | H : _ ∈ (_ ++ _)%list |- _ => apply elem_of_app in H as [H|H]
  end.

Ltac mem :=
  first [ eassumption | apply list_elem_of_here | apply list_elem_of_further; mem ].

(** Every bridge named in the history or found in the store is in range. *)
Ltac bounds Hev :=
  repeat match goal with
  | H : _ ∈ _ |- _ => apply Hev in H; simpl in H
  | H : _ !! _ = Some _ |- _ => apply lookup_lt_Some in H
  end.

(** A lookup in a store that was just updated or extended. *)
Ltac lookup_cases Hl :=
  match type of Hl with
  | <[?b := _]> ?hp !! ?b0 = Some _ =>
      destruct (decide (b = b0)) as [->|];
      [ rewrite list_lookup_insert_eq in Hl by (eapply lookup_lt_Some; eassumption);
        inversion Hl; subst; clear Hl
      | rewrite list_lookup_insert_ne in Hl by assumption ]
  | (?hp ++ [_])%list !! ?b0 = Some _ =>
      apply lookup_snoc_Some in Hl as [[Hlt Hl]|[-> <-]]
  | _ => idtac
  end.

Ltac unlock_lock :=
  repeat match goal with
  | H : lock _ ?a = Some _ |- _ =>
      unfold lock in H; destruct (m_mutex a) eqn:?; [discriminate H|];
      inversion H; subst; clear H
  end.

Ltac absurd_mem :=
  exfalso;
  match goal with
  | Hn : ∀ x, _ ∉ ?tr, H : _ ∈ ?tr |- _ => exact (Hn _ H)
  | Hn : _ ∉ ?tr, H : _ ∈ ?tr |- _ => exact (Hn H)
  end.

Ltac step_inv H :=
  match type of H with
  | step _ _ ?l ?s = Some _ =>
      destruct s as [hp rl mq w pd m tr]; destruct l; simpl in H;
      [ unfold worker_step in H; simpl in H;
        destruct w as [|b mode req|b req|b req|b req|b req];
        [ destruct pd as [|req rest]; [discriminate H|];
          match type of H with
          | (if ?c then _ else _) = _ => destruct c eqn:Eworkers
          end; unfold allowIDBFromWorkerThread_begin in H; simpl in H
        | let E := fresh "Erun" in
          destruct (runInMode mode rl) as [[[r t] rl']|] eqn:E; [|discriminate H];
          apply runInMode_inv in E as [(Ekill & -> & -> & ->)|(Ekill & -> & t' & q' & -> & Etake & ->)];
          [|destruct t' as [b' r']]
        | | | | ]
      | unfold main_step in H; simpl in H;
        destruct m as [|b r mode|b r mode|b];
        [ destruct mq as [|[b cc name mode] rest]; [discriminate H|]
        | | unfold signalCompleted_post in H | ]
      | unfold kill_step in H; simpl in H ];
      inv_some
  end.

Section Invariants.

Variable webWorkerBase : WebWorkerBase.
Variable ENABLE_WORKERS : bool.
Variable id0 : N.


Lemma modeOf_inj b b' : modeOf id0 b = modeOf id0 b' → b = b'.
Proof.
  unfold modeOf. intros H. apply (inj (String.append _)) in H.
  apply (inj pretty) in H. lia.
Qed.

(** *** Who the history and the queues talk about *)

Record Inv_struct (s : State) : Prop := {
  st_uid : m_uniqueId (runLoop s) = (id0 + N.of_nat (length (heap s)))%N;
  st_events : ∀ e, e ∈ trace s → ev_bridge e < length (heap s);
  st_create : ∀ b name mode, EvCreate b name mode ∈ trace s → mode = modeOf id0 b;
  st_create_fun : ∀ b name name' mode mode',
    EvCreate b name mode ∈ trace s → EvCreate b name' mode' ∈ trace s → name = name';
  st_mainQueue : ∀ b cc name mode,
    AllowIndexedDBTask b cc name mode ∈ mainQueue s →
    cc = commonClient webWorkerBase ∧ EvCreate b name mode ∈ trace s;
  st_main :
    match main s with
    | MIdle => True
    | MSignalLock b r mode | MSignalTest b r mode =>
        ∃ name, EvCreate b name mode ∈ trace s ∧ r = answer webWorkerBase name
    | MSignalUnlock b => b < length (heap s)
    end;
  st_queue : ∀ b r mode,
    (DidComplete b r, mode) ∈ m_messageQueue (runLoop s) →
    ∃ name, EvCreate b name mode ∈ trace s ∧ r = answer webWorkerBase name;
  st_worker :
    match worker s with
    | WIdle => True
    | WRunInMode b mode req => EvCreate b (req_name req) mode ∈ trace s
    | WCancelLock b req | WCancelClear b req | WCancelUnlock b req | WResult b req =>
        EvCreate b (req_name req) (modeOf id0 b) ∈ trace s
    end;
  st_perform : ∀ waiting b r, EvPerform waiting (DidComplete b r) ∈ trace s → waiting = b;
  st_dispatch : ∀ b name mode, EvCreate b name mode ∈ trace s → EvDispatch b ∈ trace s
}.

Lemma Inv_struct_init requests : Inv_struct (init id0 requests).
Proof.
  split; simpl; try done; try (intros; elems; fail).
  lia.
Qed.

Lemma Inv_struct_step l s s' :
  Inv_struct s → step webWorkerBase ENABLE_WORKERS l s = Some s' → Inv_struct s'.
Proof.
  intros [Huid Hev Hcr Hfun Hmq Hm Hq Hw Hpf Hdi] H. step_inv H.
  all: try apply takeForMode_elem in Etake as [Hin Hsub].
  all: try (destruct (Hq _ _ _ Hin) as (name0 & Hc0 & ->)).
  all: try (destruct (Hmq _ _ _ _ (list_elem_of_here _ _)) as [-> Hc0]).
  all: unfold returnToOpenFromWorker in *; simpl in *.
  all: split; simpl;
    [ rewrite ?length_insert, ?length_app; simpl; try lia
    | intros e He; elems; simpl; rewrite ?length_insert, ?length_app; simpl; bounds Hev; try lia
    | intros b0 n0 m0 H0; elems; eauto; try (unfold modeOf; rewrite Huid; reflexivity)
    | intros b0 n0 n0' m0 m0' H1 H2; elems; eauto; exfalso; bounds Hev; try lia
    | intros b0 cc0 n0 m0 H0; elems; eauto using list_elem_of_further;
      try (split; [reflexivity|mem]);
      try (destruct (Hmq _ _ _ _ H0); split; [assumption|mem]);
      try (destruct (Hmq b0 cc0 n0 m0); [mem|]; split; [assumption|mem])
    | try (destruct m; simpl in *; auto);
      try (destruct Hm as (n0 & Hn0 & ->); exists n0; split; [mem|reflexivity]);
      try (exists name; split; [mem|reflexivity]);
      rewrite ?length_insert, ?length_app; simpl; bounds Hev; try lia
    | intros b0 r0 m0 H0; elems;
      try (destruct Hm as (n0 & Hn0 & ->); exists n0; split; [mem|reflexivity]);
      try (destruct (Hq b0 r0 m0) as (n0 & Hn0 & ->); [auto|]; exists n0; split; [mem|reflexivity])
    | auto; try mem; try (rewrite <- (Hcr _ _ _ Hw); mem);
      try (destruct w; simpl in *; auto; mem)
    | intros wt0 b0 r0 H0; elems; eauto;
      apply modeOf_inj; rewrite <- (Hcr _ _ _ Hw), <- (Hcr _ _ _ Hc0); reflexivity
    | intros b0 n0 m0 H0; elems; try mem; apply Hdi in H0; mem ].
Qed.


(** *** The mutex *)

Record Inv_mutex (s : State) : Prop := {
  mx_owner : ∀ b br, heap s !! b = Some br → m_mutex br = owner (worker s) (main s) b;
  mx_excl : ∀ b, worker_holds (worker s) b = true → main_holds (main s) b = false
}.

Lemma Inv_mutex_init requests : Inv_mutex (init id0 requests).
Proof. split; simpl; intros; done. Qed.

Lemma main_bridge_bound s b :
  Inv_struct s → main_holds (main s) b = true → b < length (heap s).
Proof.
  intros [_ Hev _ _ _ Hm _ _ _ _]. destruct (main s); simpl; try done.
  - destruct Hm as (n & Hn & _). apply Hev in Hn. simpl in Hn.
    intros ->%bool_decide_eq_true. done.
  - intros ->%bool_decide_eq_true. done.
Qed.

Lemma Inv_mutex_step l s s' :
  Inv_struct s → Inv_mutex s →
  step webWorkerBase ENABLE_WORKERS l s = Some s' → Inv_mutex s'.
Proof.
  intros Hst [Hown Hex] H.
  pose proof (main_bridge_bound s) as Hmb. specialize (fun b => Hmb b Hst).
  clear Hst. step_inv H.
  all: simpl in *.
  all: split; simpl.
  all: try (intros b0 br0 Hl; lookup_cases Hl).
  all: try (intros b0 Hl).
  all: unlock_lock.
  all: repeat match goal with
       | H : _ !! _ = Some _ |- _ => apply Hown in H
       end.
  all: try specialize (Hex b0); try specialize (Hmb b0).
  all: unfold owner in *; simpl in *.
  all: repeat case_bool_decide; subst; simpl in *; try congruence; try lia; auto.
  all: repeat match goal with
       | |- context [main_holds ?m ?b] => destruct (main_holds m b) eqn:?
       | |- context [worker_holds ?w ?b] => destruct (worker_holds w b) eqn:?
       end.
  all: simpl in *; try congruence; auto.
  all: try (exfalso; match goal with H : main_holds _ _ = true |- _ => apply Hmb in H; lia end).
  all: try (repeat match goal with
            | H : worker_holds _ _ = _ |- _ => rewrite H in *
            | H : main_holds _ _ = _ |- _ => rewrite H in *
            end; simpl in *; congruence).
  all: try discriminate (Hex eq_refl).
Qed.

(** *** The worker's control flow as the history shows it *)

Definition worker_assert (w : WorkerPC) (killed : bool) (tr : list event) : Prop :=
  match w with
  | WIdle => True
  | WRunInMode b _ _ =>
      (∀ r, EvWait b r ∉ tr) ∧ (∀ v, EvReturn b v ∉ tr) ∧
      (∀ locked, EvAccess WorkerThread b Result_field Read locked ∉ tr)
  | WCancelLock b _ | WCancelClear b _ =>
      killed = true ∧ EvWait b MessageQueueTerminated ∈ tr ∧ (∀ v, EvReturn b v ∉ tr)
  | WCancelUnlock b _ =>
      killed = true ∧ EvWait b MessageQueueTerminated ∈ tr ∧ (∀ v, EvReturn b v ∉ tr) ∧
      cleared b tr
  | WResult b _ =>
      EvWait b MessageQueueMessageReceived ∈ tr ∧ (EvWait b MessageQueueTerminated ∉ tr) ∧
      (∀ v, EvReturn b v ∉ tr)
  end.

Record Inv_worker (s : State) : Prop := {
  fl_worker : worker_assert (worker s) (m_killed (runLoop s)) (trace s);
  fl_return_fun : ∀ b v v', EvReturn b v ∈ trace s → EvReturn b v' ∈ trace s → v = v';
  fl_effect : ∀ b e, EvEffect b e ∈ trace s →
    ∃ v name mode dataDir, e = openFromWorker_finish v name dataDir ∧
      EvReturn b v ∈ trace s ∧ EvCreate b name mode ∈ trace s;
  fl_return_effect : ∀ b v, EvReturn b v ∈ trace s →
    ∃ name mode dataDir, EvEffect b (openFromWorker_finish v name dataDir) ∈ trace s ∧
      EvCreate b name mode ∈ trace s;
  fl_return_wait : ∀ b v, EvReturn b v ∈ trace s → ∃ r, EvWait b r ∈ trace s;
  fl_terminated : ∀ b, EvWait b MessageQueueTerminated ∈ trace s →
    (EvWait b MessageQueueMessageReceived ∉ trace s) ∧
    (∀ locked, EvAccess WorkerThread b Result_field Read locked ∉ trace s) ∧
    (∀ v, EvReturn b v ∈ trace s → v = false ∧ cleared b (trace s));
  fl_cleared_killed : ∀ b, cleared b (trace s) → m_killed (runLoop s) = true
}.

Lemma Inv_worker_init requests : Inv_worker (init id0 requests).
Proof.
  split; simpl; try done; intros; elems.
  destruct H as [? H]. elems.
Qed.

Lemma cleared_cons b e tr : cleared b tr → cleared b (e :: tr).
Proof. intros [l H]. exists l. by right. Qed.

Lemma cleared_here b l tr :
  cleared b (EvAccess WorkerThread b WebWorkerBase_field Write l :: tr).
Proof. exists l. by left. Qed.

Lemma cleared_inv b e tr :
  cleared b (e :: tr) →
  (∃ l, e = EvAccess WorkerThread b WebWorkerBase_field Write l) ∨ cleared b tr.
Proof.
  intros [l [H|H]%elem_of_cons]; [left|right]; by exists l.
Qed.

Lemma Inv_worker_step l s s' :
  Inv_struct s → Inv_worker s →
  step webWorkerBase ENABLE_WORKERS l s = Some s' → Inv_worker s'.
Proof.
  intros [_ Hev _ _ _ _ _ Hsw _ _] [Hw Hrf Hef Hre Hrw Hte Hck] H. step_inv H.
  all: unfold returnToOpenFromWorker in *; simpl in *.
  all: split; simpl.
  all: try (destruct w; simpl in *).
  all: try done.
  all: repeat match goal with
       | |- _ ∧ _ => split
       | |- ∀ _, _ => intro
       | |- _ ∉ _ => intro
       | |- ¬ _ => intro
       end.
  all: repeat match goal with
       | H : _ ∧ _ |- _ => destruct H
       | H : ∃ _, _ |- _ => destruct H
       end.
  all: repeat match goal with
       | H : cleared _ (_ :: _) |- _ => apply cleared_inv in H as [[? H]|H]; [simplify_eq|]
       end.
  all: elems.
  all: try done.
  all: try (exfalso; bounds Hev; lia).
  all: try absurd_mem.
  all: try mem.
  all: repeat match goal with
       | H : EvWait ?b MessageQueueTerminated ∈ ?tr |- _ =>
           lazymatch goal with
           | _ : EvWait b MessageQueueMessageReceived ∉ tr |- _ => fail
           | _ => destruct (Hte _ H) as (? & ? & ?)
           end
       | H : EvEffect ?b ?e ∈ ?tr |- _ =>
           is_var e; destruct (Hef _ _ H) as (? & ? & ? & ? & -> & ? & ?)
       | H : EvReturn ?b ?v ∈ ?tr |- _ =>
           lazymatch goal with
           | _ : EvEffect b (openFromWorker_finish v _ _) ∈ tr |- _ => fail
           | _ => destruct (Hre _ _ H) as (? & ? & ? & ? & ?)
           end
       | H : EvReturn ?b ?v ∈ ?tr |- _ =>
           lazymatch goal with
           | _ : EvWait b _ ∈ tr |- _ => fail
           | _ => destruct (Hrw _ _ H) as (? & ?)
           end
       | H : EvReturn ?b ?v ∈ ?tr, Hn : ∀ v, EvReturn ?b v ∈ ?tr → v = false ∧ cleared ?b ?tr |- _ =>
           lazymatch goal with
           | _ : cleared b tr |- _ => fail
           | _ => destruct (Hn _ H) as (? & ?)
           end
       end.
  all: try done.
  all: try absurd_mem.
  all: try solve [eauto 4 using list_elem_of_here, list_elem_of_further, cleared_cons, cleared_here].
  all: try (eexists _, _, _, _; split; [reflexivity|split; mem]).
  all: try (eexists _, _, _; split; mem).
  all: try (eexists; mem).
Qed.

(** *** The result slot and the back-reference *)

Record Inv_result (s : State) : Prop := {
  rs_result : ∀ b br, heap s !! b = Some br → m_result br = true →
    (∃ name mode, EvCreate b name mode ∈ trace s ∧ answer webWorkerBase name = true) ∧
    (∃ w, EvPerform w (DidComplete b true) ∈ trace s);
  rs_return_true : ∀ b, EvReturn b true ∈ trace s →
    EvWait b MessageQueueMessageReceived ∈ trace s ∧
    ∃ name mode, EvCreate b name mode ∈ trace s ∧ answer webWorkerBase name = true;
  rs_cleared : ∀ b br, heap s !! b = Some br → cleared b (trace s) →
    m_webWorkerBase br = None;
  rs_access_wwb : ∀ t b a l, EvAccess t b WebWorkerBase_field a l ∈ trace s → l = true;
  rs_access_result : ∀ t b a l, EvAccess t b Result_field a l ∈ trace s →
    t = WorkerThread ∧ l = false;
  rs_write_perform : ∀ t b l, EvAccess t b Result_field Write l ∈ trace s →
    ∃ w r, EvPerform w (DidComplete b r) ∈ trace s;
  rs_order : dropped_after_cancel (trace s)
}.

Lemma Inv_result_init requests : Inv_result (init id0 requests).
Proof.
  split; simpl; try done; intros; elems.
Qed.

Lemma not_delivery b e :
  match e with
  | EvPost _ _ _ | EvAccess _ _ Result_field Write _ => False
  | _ => True
  end → ¬ delivery b e.
Proof.
  intros He [(r & mode & ->)|(t & l & ->)]; done.
Qed.

Lemma Inv_result_step l s s' :
  Inv_struct s → Inv_mutex s → Inv_worker s → Inv_result s →
  step webWorkerBase ENABLE_WORKERS l s = Some s' → Inv_result s'.
Proof.
  intros [_ Hev _ _ _ _ Hq _ _ _] [Hown Hex] [Hw _ _ _ _ _ Hck]
         [Hres Hrt Hcl Haw Har Hwp Hord] H.
  step_inv H.
  all: try apply takeForMode_elem in Etake as [Hin _].
  all: try (destruct (Hq _ _ _ Hin) as (name0 & Hc0 & ->)).
  all: unfold returnToOpenFromWorker in *; simpl in *.
  all: split; simpl.
  all: repeat match goal with
       | |- _ ∧ _ => split
       | |- ∀ _, _ => intro
       | |- _ ∉ _ => intro
       | |- ¬ _ => intro
       end.
  all: try (apply not_delivery in H; [destruct H|done]).
  all: try match goal with
       | Hl : _ !! _ = Some _ |- _ => lookup_cases Hl
       end.
  all: repeat match goal with
       | H : _ ∧ _ |- _ => destruct H
       | H : ∃ _, _ |- _ => destruct H
       | H : delivery _ _ |- _ => destruct H as [(? & ? & ?)|(? & ? & ?)]; simplify_eq
       | H : cleared _ (_ :: _) |- _ => apply cleared_inv in H as [[? H]|H]; [simplify_eq|]
       end.
  all: elems.
  all: unlock_lock; simpl in *.
  all: try done.
  all: try (exfalso; bounds Hev; lia).
  all: try (exfalso; match goal with
            | H : cleared _ _ |- _ => destruct H as [? H]; apply Hev in H; simpl in H; lia
            end).
  all: try absurd_mem.
  all: try (eapply Hcl; eassumption).
  all: try match goal with
       | |- holds _ ?a = _ =>
           match goal with
           | E : _ !! ?b = Some a |- _ =>
               unfold holds; rewrite (Hown _ _ E); unfold owner; simpl;
               specialize (Hex b); simpl in Hex;
               rewrite ?bool_decide_eq_true_2 in * by reflexivity;
               try rewrite Hex by reflexivity;
               repeat match goal with
               | |- context [worker_holds ?w ?b] => destruct (worker_holds w b) eqn:?
               | |- context [main_holds ?w ?b] => destruct (main_holds w b) eqn:?
               end; try done; try discriminate (Hex eq_refl);
               repeat case_bool_decide; done
           end
       end.
  all: try (exfalso; match goal with
            | H : cleared _ _ |- _ => apply Hck in H; congruence
            end).
  all: repeat match goal with
       | H : answer _ _ = true |- _ => progress rewrite H in *
       | H : true = result _ |- _ => symmetry in H; unfold result in H
       end.
  all: repeat match goal with
       | Hl : ?hp !! ?b = Some ?br, Hr : m_result ?br = true |- _ =>
           destruct (Hres _ _ Hl Hr) as ((? & ? & ? & ?) & (? & ?)); clear Hr
       | H : EvReturn ?b true ∈ ?tr |- _ =>
           lazymatch goal with
           | _ : EvWait b MessageQueueMessageReceived ∈ tr |- _ => fail
           | _ => destruct (Hrt _ H) as (? & ? & ? & ? & ?)
           end
       | H : EvAccess _ _ WebWorkerBase_field _ _ ∈ _ |- _ => apply Haw in H
       | H : EvAccess _ _ Result_field Write _ ∈ _ |- _ =>
           destruct (Hwp _ _ _ H) as (? & ? & ?); apply Har in H as [? ?]
       | H : EvAccess _ _ Result_field _ _ ∈ _ |- _ => apply Har in H as [? ?]
       end.
  all: try done.
  all: try (eexists _, _; split; [mem|done]).
  all: try (eexists _, _; mem).
  all: try (eexists; mem).
  all: try mem.
  exfalso. pose proof (Hcl _ _ E H0). congruence.
Qed.

(** *** One completion per bridge *)

Definition Inv_once (s : State) : Prop :=
  ∀ b, (tokens s b ≤ 1)%nat ∧ ((length (heap s) ≤ b)%nat → tokens s b = 0).

Lemma Inv_once_init requests : Inv_once (init id0 requests).
Proof. intros b. unfold tokens, result_writes. simpl. lia. Qed.

Lemma Inv_once_step l s s' :
  Inv_once s → step webWorkerBase ENABLE_WORKERS l s = Some s' → Inv_once s'.
Proof.
  intros Hon H b0. step_inv H.
  all: try (pose proof (Hon (length hp)) as Hnew).
  all: specialize (Hon b0); unfold tokens, result_writes, returnToOpenFromWorker in *.
  all: simpl in *.
  all: try rewrite (takeForMode_count (is_completion_for b0) _ _ _ _ Etake) in *.
  all: rewrite ?count_app, ?length_app, ?length_insert in *; simpl in *.
  all: repeat match goal with
       | E : _ !! _ = Some _ |- _ => apply lookup_lt_Some in E
       end.
  all: repeat case_bool_decide; subst; simpl in *; try lia.
Qed.

(** *** What the check returns, exactly *)

Definition cancelling (w : WorkerPC) (b : bridge_ref) : Prop :=
  ∃ req, w = WCancelLock b req ∨ w = WCancelClear b req ∨ w = WCancelUnlock b req.

Record Inv_exact (s : State) : Prop := {
  ex_worker :
    match worker s with
    | WResult b req =>
        ∃ br, heap s !! b = Some br ∧ m_result br = answer webWorkerBase (req_name req)
    | _ => True
    end;
  ex_return : ∀ b v name mode,
    EvReturn b v ∈ trace s → EvWait b MessageQueueMessageReceived ∈ trace s →
    EvCreate b name mode ∈ trace s → v = answer webWorkerBase name;
  ex_written : ∀ b br, heap s !! b = Some br → m_result br = true →
    (1 ≤ result_writes b s)%nat;
  ex_post : ∀ b r mode, EvPost b r mode ∈ trace s →
    ∃ name, EvCreate b name mode ∈ trace s ∧ r = answer webWorkerBase name;
  ex_terminated : ∀ b, EvWait b MessageQueueTerminated ∈ trace s →
    EvReturn b false ∈ trace s ∨ cancelling (worker s) b
}.

Lemma Inv_exact_init requests : Inv_exact (init id0 requests).
Proof. split; simpl; try done; intros; elems. Qed.

Lemma Inv_exact_step l s s' :
  Inv_struct s → Inv_worker s → Inv_exact s →
  step webWorkerBase ENABLE_WORKERS l s = Some s' → Inv_exact s'.
Proof.
  intros [_ Hev Hcr Hfun _ Hm Hq Hsw _ _] [Hw _ _ _ _ Hte _]
         [Hxw Hxr Hxn Hxp Hxt] H.
  unfold cancelling in *.
  step_inv H.
  all: try (pose proof (takeForMode_elem _ _ _ _ Etake) as [Hin _]).
  all: try (destruct (Hq _ _ _ Hin) as (name0 & Hc0 & ->)).
  all: unfold returnToOpenFromWorker, result_writes in *; simpl in *.
  all: split; simpl;
    [ (* the worker about to read the result *)
      try done;
      try (destruct w as [| | | | |bw reqw]; try done;
           destruct Hxw as (brw & Hlw & Hrw);
           try (eexists; split; [eassumption|assumption]);
           match goal with
           | |- context [<[?b1 := _]> _ !! ?b2] =>
               destruct (decide (b1 = b2)) as [->|];
               [ rewrite list_lookup_insert_eq by (eapply lookup_lt_Some; eassumption)
               | rewrite list_lookup_insert_ne by assumption ]
           end;
           unlock_lock; simplify_eq;
           eexists; (split; [reflexivity || eassumption|]); simpl; assumption)
    | (* what was returned *)
      intros b0 v0 n0 m0 H1 H2 H3; elems;
      try (exfalso; bounds Hev; lia);
      try (eapply Hxr; eassumption);
      try (destruct w; simpl in Hw);
      try absurd_mem
    | (* a true result was written *)
      intros b0 br0 Hl Hr; unfold result_writes; simpl;
      lookup_cases Hl; unlock_lock; simpl in *; try done;
      repeat case_bool_decide; try done; try lia;
      try (eapply Nat.le_trans; [eapply Hxn; eassumption|lia])
    | (* what was posted *)
      intros b0 r0 m0 H0; elems;
      first [ destruct (Hxp _ _ _ H0) as (nm & Hnm & ->)
            | destruct Hm as (nm & Hnm & ->) ];
      exists nm; (split; [mem|reflexivity])
    | (* a terminated wait is followed by the cancellation *)
      unfold cancelling in *; intros b0 H0; elems;
      try (right; eexists; left; reflexivity);
      destruct (Hxt _ H0) as [Hr|(req0 & [Hc|[Hc|Hc]])]; simplify_eq;
      try (left; mem);
      try (right; eexists; eauto; fail) ].
  - assert (b' = b) as ->.
    { apply modeOf_inj. rewrite <- (Hcr _ _ _ Hsw), <- (Hcr _ _ _ Hc0). done. }
    rewrite (Hfun _ _ _ _ _ Hc0 Hsw).
    rewrite list_lookup_insert_eq by (eapply lookup_lt_Some; eassumption).
    eexists; split; [reflexivity|done].
  - destruct Hw as (_ & Hnr & _). destruct (Hnr _ H1).
  - destruct Hw as (_ & Hterm & _). destruct (Hte _ Hterm) as (Hnrec & _).
    destruct (Hnrec H2).
  - destruct Hxw as (br & Hl & Hr). rewrite E in Hl. inversion Hl; subst.
    unfold result. rewrite Hr. f_equal. eapply Hfun; eassumption.
Qed.

(** *** All invariants together, along every schedule *)

Record Inv (s : State) : Prop := {
  inv_struct : Inv_struct s;
  inv_mutex : Inv_mutex s;
  inv_worker : Inv_worker s;
  inv_result : Inv_result s;
  inv_once : Inv_once s;
  inv_exact : Inv_exact s
}.

Lemma Inv_init requests : Inv (init id0 requests).
Proof.
  split; auto using Inv_struct_init, Inv_mutex_init, Inv_worker_init, Inv_result_init,
    Inv_once_init, Inv_exact_init.
Qed.

Lemma Inv_step l s s' :
  Inv s → step webWorkerBase ENABLE_WORKERS l s = Some s' → Inv s'.
Proof.
  intros [H1 H2 H3 H4 H5 H6] H.
  split; eauto using Inv_struct_step, Inv_mutex_step, Inv_worker_step, Inv_result_step,
    Inv_once_step, Inv_exact_step.
Qed.

Lemma Inv_exec sched s s' :
  Inv s → exec webWorkerBase ENABLE_WORKERS sched s = Some s' → Inv s'.
Proof.
  revert s. induction sched as [|l sched IH]; intros s Hs H; simpl in H.
  - by inversion H; subst.
  - destruct (step webWorkerBase ENABLE_WORKERS l s) as [s1|] eqn:E; simpl in H; [|done].
    eauto using Inv_step.
Qed.

Lemma Inv_run requests sched s :
  run webWorkerBase ENABLE_WORKERS id0 requests sched = Some s → Inv s.
Proof. apply Inv_exec, Inv_init. Qed.

(** *** Progress of a cancellation

    Once [runInMode] has returned [MessageQueueTerminated] the worker needs
    three moves of its own to return; it waits for the mutex only while the
    main thread is between lines 113 and 116, which takes two moves at most. *)

Lemma exec_cons l sched s s1 :
  step webWorkerBase ENABLE_WORKERS l s = Some s1 →
  exec webWorkerBase ENABLE_WORKERS (l :: sched) s =
  exec webWorkerBase ENABLE_WORKERS sched s1.
Proof. intros H. simpl. rewrite H. reflexivity. Qed.

Lemma worker_bridge_allocated s b req :
  Inv_struct s →
  worker s = WCancelLock b req ∨ worker s = WCancelClear b req ∨
  worker s = WCancelUnlock b req →
  is_Some (heap s !! b).
Proof.
  intros [_ Hev _ _ _ _ _ Hw _ _] Hpc. apply lookup_lt_is_Some.
  destruct Hpc as [Hpc|[Hpc|Hpc]]; rewrite Hpc in Hw; apply Hev in Hw; exact Hw.
Qed.

Lemma cancel_unlock_returns s b req :
  Inv s → worker s = WCancelUnlock b req →
  ∃ s', exec webWorkerBase ENABLE_WORKERS [StepWorker] s = Some s' ∧
        EvReturn b false ∈ trace s'.
Proof.
  intros HI Hpc. destruct (worker_bridge_allocated s b req) as [br Hbr]; [apply HI|auto|].
  destruct s as [hp rl mq w pd m tr]; simpl in *; subst w.
  unfold worker_step; simpl. rewrite Hbr; simpl.
  eexists; split; [reflexivity|]. simpl. unfold returnToOpenFromWorker. mem.
Qed.

Lemma cancel_clear_returns s b req :
  Inv s → worker s = WCancelClear b req →
  ∃ s', exec webWorkerBase ENABLE_WORKERS [StepWorker; StepWorker] s = Some s' ∧
        EvReturn b false ∈ trace s'.
Proof.
  intros HI Hpc. destruct (worker_bridge_allocated s b req) as [br Hbr]; [apply HI|auto|].
  assert (∃ s1, step webWorkerBase ENABLE_WORKERS StepWorker s = Some s1 ∧
                worker s1 = WCancelUnlock b req) as (s1 & Hs1 & Hpc1).
  { destruct s as [hp rl mq w pd m tr]; simpl in *; subst w.
    unfold worker_step; simpl. rewrite Hbr; simpl. eexists; split; reflexivity. }
  destruct (cancel_unlock_returns s1 b req) as (s' & Hs' & Hret);
    [eapply Inv_step; eassumption|assumption|].
  exists s'. split; [|assumption].
  rewrite (exec_cons _ _ _ _ Hs1). exact Hs'.
Qed.

Lemma cancel_lock_free_returns s b req br :
  Inv s → worker s = WCancelLock b req →
  heap s !! b = Some br → m_mutex br = None →
  ∃ s', exec webWorkerBase ENABLE_WORKERS [StepWorker; StepWorker; StepWorker] s = Some s' ∧
        EvReturn b false ∈ trace s'.
Proof.
  intros HI Hpc Hbr Hfree.
  assert (∃ s1, step webWorkerBase ENABLE_WORKERS StepWorker s = Some s1 ∧
                worker s1 = WCancelClear b req) as (s1 & Hs1 & Hpc1).
  { destruct s as [hp rl mq w pd m tr]; simpl in *; subst w.
    unfold worker_step, lock; simpl. rewrite Hbr; simpl. rewrite Hfree; simpl.
    eexists; split; reflexivity. }
  destruct (cancel_clear_returns s1 b req) as (s' & Hs' & Hret);
    [eapply Inv_step; eassumption|assumption|].
  exists s'. split; [|assumption].
  rewrite (exec_cons _ _ _ _ Hs1). exact Hs'.
Qed.

Lemma cancel_lock_returns s b req :
  Inv s → worker s = WCancelLock b req →
  ∃ sched s', (length sched ≤ 5)%nat ∧
    exec webWorkerBase ENABLE_WORKERS sched s = Some s' ∧ EvReturn b false ∈ trace s'.
Proof.
  intros HI Hpc. destruct (worker_bridge_allocated s b req) as [br Hbr]; [apply HI|auto|].
  destruct (m_mutex br) as [t|] eqn:Hmx.
  2: { destruct (cancel_lock_free_returns s b req br) as (s' & Hs' & Hret); auto.
       exists [StepWorker; StepWorker; StepWorker], s'. simpl. split; [lia|done]. }
  pose proof (mx_owner s (inv_mutex s HI) b br Hbr) as Hown.
  rewrite Hmx, Hpc in Hown. unfold owner in Hown. simpl in Hown.
  destruct (main s) as [|b1 r1 mode1|b1 r1 mode1|b1] eqn:Hm; simpl in Hown; try done;
    case_bool_decide; try done; subst b1.
  - (* the main thread is at line 114 *)
    assert (∃ s1, step webWorkerBase ENABLE_WORKERS StepMain s = Some s1 ∧
                  worker s1 = WCancelLock b req ∧ main s1 = MSignalUnlock b ∧
                  heap s1 = heap s) as (s1 & Hs1 & Hpc1 & Hm1 & Hh1).
    { destruct s as [hp rl mq w pd m tr]; simpl in *; subst w m.
      unfold main_step, signalCompleted_post; simpl. rewrite Hbr; simpl.
      destruct (m_webWorkerBase br); eexists; repeat split; reflexivity. }
    assert (∃ s2, step webWorkerBase ENABLE_WORKERS StepMain s1 = Some s2 ∧
                  worker s2 = WCancelLock b req ∧
                  heap s2 !! b = Some (unlock br)) as (s2 & Hs2 & Hpc2 & Hh2).
    { destruct s1 as [hp rl mq w pd m tr]; simpl in *; subst w m hp.
      unfold main_step; simpl. rewrite Hbr; simpl. eexists; repeat split; try reflexivity.
      simpl. apply list_lookup_insert_eq. eapply lookup_lt_Some; eassumption. }
    destruct (cancel_lock_free_returns s2 b req (unlock br)) as (s' & Hs' & Hret); auto.
    { eapply Inv_step; [|eassumption]. eapply Inv_step; eassumption. }
    exists [StepMain; StepMain; StepWorker; StepWorker; StepWorker], s'.
    split; [simpl; lia|]. split; [|assumption].
    rewrite (exec_cons _ _ _ _ Hs1), (exec_cons _ _ _ _ Hs2). exact Hs'.
  - (* the main thread is at line 116 *)
    assert (∃ s2, step webWorkerBase ENABLE_WORKERS StepMain s = Some s2 ∧
                  worker s2 = WCancelLock b req ∧
                  heap s2 !! b = Some (unlock br)) as (s2 & Hs2 & Hpc2 & Hh2).
    { destruct s as [hp rl mq w pd m tr]; simpl in *; subst w m.
      unfold main_step; simpl. rewrite Hbr; simpl. eexists; repeat split; try reflexivity.
      simpl. apply list_lookup_insert_eq. eapply lookup_lt_Some; eassumption. }
    destruct (cancel_lock_free_returns s2 b req (unlock br)) as (s' & Hs' & Hret); auto.
    { eapply Inv_step; eassumption. }
    exists [StepMain; StepWorker; StepWorker; StepWorker], s'.
    split; [simpl; lia|]. split; [|assumption].
    rewrite (exec_cons _ _ _ _ Hs2). exact Hs'.
Qed.

Lemma cancelling_returns s b :
  Inv s → cancelling (worker s) b →
  ∃ sched s', (length sched ≤ 5)%nat ∧
    exec webWorkerBase ENABLE_WORKERS sched s = Some s' ∧ EvReturn b false ∈ trace s'.
Proof.
  intros HI (req & [Hpc|[Hpc|Hpc]]).
  - eauto using cancel_lock_returns.
  - destruct (cancel_clear_returns s b req) as (s' & Hs' & Hret); auto.
    exists [StepWorker; StepWorker], s'. simpl. split; [lia|done].
  - destruct (cancel_unlock_returns s b req) as (s' & Hs' & Hret); auto.
    exists [StepWorker], s'. simpl. split; [lia|done].
Qed.

End Invariants.

(** ** Facts about single methods and single steps *)

Lemma cancel_inv t br br1 :
  cancel t br = Some br1 →
  m_mutex br = None ∧ br1 = Bridge (m_result br) None None.
Proof.
  unfold cancel, lock. destruct (m_mutex br) eqn:E; simpl; [done|].
  intros H; inversion H; subst. done.
Qed.

Lemma signalCompleted_inv t b r mode br br1 post :
  signalCompleted t b r mode br = Some (br1, post) →
  m_mutex br = None ∧ br1 = Bridge (m_result br) None (m_webWorkerBase br) ∧
  post = signalCompleted_post b r mode br.
Proof.
  unfold signalCompleted, lock. destruct (m_mutex br) eqn:E; simpl; [done|].
  intros H; inversion H; subst. done.
Qed.

(** Only the completion task, run by the worker inside [runInMode], changes
    the result slot of an existing bridge. *)
Lemma m_result_step webWorkerBase ENABLE_WORKERS l s s' bx brx brx' :
  step webWorkerBase ENABLE_WORKERS l s = Some s' →
  heap s !! bx = Some brx → heap s' !! bx = Some brx' →
  m_result brx' ≠ m_result brx →
  l = StepWorker ∧
  ∃ waiting mode req q,
    worker s = WRunInMode waiting mode req ∧
    takeForMode mode (m_messageQueue (runLoop s)) = Some (DidComplete bx (m_result brx'), q) ∧
    brx' = didComplete (m_result brx') brx.
Proof.
  intros H Hb Hb' Hne. step_inv H; simpl in *.
  all: try (rewrite (lookup_app_l_Some _ _ _ _ Hb) in Hb').
  all: try match type of Hb' with
       | <[?b1 := _]> _ !! ?b2 = _ =>
           destruct (decide (b1 = b2)) as [->|];
           [ rewrite list_lookup_insert_eq in Hb' by (eapply lookup_lt_Some; eassumption)
           | rewrite list_lookup_insert_ne in Hb' by assumption ]
       end.
  all: unlock_lock; simplify_eq; simpl in *; try done.
  split; [done|]. eauto 10.
Qed.

Lemma step_trace_mono webWorkerBase ENABLE_WORKERS l s s' e :
  step webWorkerBase ENABLE_WORKERS l s = Some s' → e ∈ trace s → e ∈ trace s'.
Proof.
  intros H He. step_inv H; unfold returnToOpenFromWorker; simpl in *; mem.
Qed.

Lemma exec_trace_mono webWorkerBase ENABLE_WORKERS sched s s' e :
  exec webWorkerBase ENABLE_WORKERS sched s = Some s' → e ∈ trace s → e ∈ trace s'.
Proof.
  revert s. induction sched as [|l sched IH]; intros s H He; simpl in H.
  - by inversion H; subst.
  - destruct (step webWorkerBase ENABLE_WORKERS l s) as [s1|] eqn:E; simpl in H; [|done].
    eauto using step_trace_mono.
Qed.

Lemma dropped_split tr later e older b :
  dropped_after_cancel tr → tr = (later ++ e :: older)%list →
  delivery b e → ¬ cleared b older.
Proof.
  revert tr. induction later as [|x later IH]; intros tr Hd ->; simpl in Hd.
  - destruct Hd as [Hd _]. apply Hd.
  - destruct Hd as [_ Hd]. eapply IH; [exact Hd|reflexivity].
Qed.

(** The invariants of a state, taken apart under fixed names. *)
Ltac inv_fields HI :=
  destruct HI as [[Huid Hev Hcr Hfun Hmq Hm Hq Hsw Hpf Hdi] [Hown Hexcl]
                  [Hw Hrf Hef Hre Hrw Hte Hck] [Hres Hrt Hcl Haw Har Hwp Hord]
                  Honce [Hxw Hxr Hxn Hxp Hxt]].

(** * The claims *)

Section Claims.

Variable webWorkerBase : WebWorkerBase.
Variable ENABLE_WORKERS : bool.
Variable id0 : N.

(** C1.  For every call of [allowIDBFromWorkerThread] that has returned (the
    call made for [name], served by bridge [b]): the value is [true] only if
    the common worker client was present, its [allowIndexedDB] answered [true]
    for [name], and the wait in [runInMode] ended with a message rather than
    with the termination of the queue; the value is [false] whenever the
    client was absent, or it answered [false], or the run loop was
    terminated.  When the wait ended with a message the value is exactly the
    client's answer. *)
Theorem allowIDBFromWorkerThread_result requests sched s b name mode allowed :
  run webWorkerBase ENABLE_WORKERS id0 requests sched = Some s →
  EvCreate b name mode ∈ trace s →
  EvReturn b allowed ∈ trace s →
  (allowed = true →
     (∃ client, commonClient webWorkerBase = Some client ∧
                allowIndexedDB client name = true) ∧
     EvWait b MessageQueueMessageReceived ∈ trace s ∧
     EvWait b MessageQueueTerminated ∉ trace s) ∧
  (commonClient webWorkerBase = None → allowed = false) ∧
  (∀ client, commonClient webWorkerBase = Some client →
             allowIndexedDB client name = false → allowed = false) ∧
  (EvWait b MessageQueueTerminated ∈ trace s → allowed = false) ∧
  (EvWait b MessageQueueMessageReceived ∈ trace s → allowed = answer webWorkerBase name).
Proof.
  intros Hrun Hc Hr. apply Inv_run in Hrun as HI. inv_fields HI.
  assert (allowed = true →
          answer webWorkerBase name = true ∧
          EvWait b MessageQueueMessageReceived ∈ trace s) as Htrue.
  { intros ->. destruct (Hrt _ Hr) as (Hwt & n & m & Hc' & Ha).
    split; [|assumption]. by rewrite (Hfun _ _ _ _ _ Hc Hc'). }
  assert (EvWait b MessageQueueTerminated ∈ trace s → allowed = false) as Hterm.
  { intros Ht. destruct (Hte _ Ht) as (_ & _ & Hf). by destruct (Hf _ Hr). }
  repeat split.
  - destruct (Htrue H) as [Ha _]. unfold answer, allowIndexedDBTask in Ha.
    destruct (commonClient webWorkerBase) as [client|]; [eauto|done].
  - by destruct (Htrue H).
  - intros Ht. subst. by specialize (Hterm Ht).
  - intros Hnone. destruct allowed; [|done]. destruct (Htrue eq_refl) as [Ha _].
    unfold answer in Ha. by rewrite Hnone in Ha.
  - intros client Hsome Hdeny. destruct allowed; [|done].
    destruct (Htrue eq_refl) as [Ha _]. unfold answer in Ha. rewrite Hsome in Ha.
    simpl in Ha. congruence.
  - assumption.
  - intros Hwt. eapply Hxr; eassumption.
Qed.

(** C2.  Whenever [runInMode] has returned [MessageQueueTerminated] for a
    call, that call never reads the bridge's result; if it has returned, it
    returned [false] after clearing the back-reference in [cancel]; and it
    does return [false]: at most five further moves of the two threads take
    it there. *)
Theorem terminated_wait_cancels requests sched s b :
  run webWorkerBase ENABLE_WORKERS id0 requests sched = Some s →
  EvWait b MessageQueueTerminated ∈ trace s →
  (∀ locked, EvAccess WorkerThread b Result_field Read locked ∉ trace s) ∧
  (∀ allowed, EvReturn b allowed ∈ trace s → allowed = false ∧ cleared b (trace s)) ∧
  (∃ more s', (length more ≤ 5)%nat ∧
     exec webWorkerBase ENABLE_WORKERS more s = Some s' ∧
     EvReturn b false ∈ trace s' ∧ cleared b (trace s') ∧
     ∀ locked, EvAccess WorkerThread b Result_field Read locked ∉ trace s').
Proof.
  intros Hrun Ht. pose proof (Inv_run _ _ _ _ _ _ Hrun) as HI.
  assert (∃ more s', (length more ≤ 5)%nat ∧
            exec webWorkerBase ENABLE_WORKERS more s = Some s' ∧
            EvReturn b false ∈ trace s' ∧ EvWait b MessageQueueTerminated ∈ trace s')
    as (more & s' & Hlen & Hex & Hret & Ht').
  { destruct (ex_terminated _ _ (inv_exact _ _ _ HI) _ Ht) as [Hr|Hc].
    - exists [], s. simpl. repeat split; [lia|done..].
    - destruct (cancelling_returns _ ENABLE_WORKERS _ _ _ HI Hc) as (more & s' & Hlen & Hex & Hr).
      exists more, s'. repeat split; try done.
      eapply exec_trace_mono; eassumption. }
  pose proof (Inv_exec _ _ _ _ _ _ HI Hex) as HI'.
  destruct (fl_terminated _ (inv_worker _ _ _ HI') _ Ht') as (_ & Hnr' & Hf').
  destruct (fl_terminated _ (inv_worker _ _ _ HI) _ Ht) as (_ & Hnr & Hf).
  split; [assumption|]. split; [assumption|].
  exists more, s'. repeat split; try done. by destruct (Hf' _ Hret).
Qed.

Lemma absent_client_answer name :
  commonClient webWorkerBase = None → answer webWorkerBase name = false.
Proof. intros Hnone. unfold answer. by rewrite Hnone. Qed.

Lemma return_when_absent requests sched s b allowed :
  commonClient webWorkerBase = None →
  run webWorkerBase ENABLE_WORKERS id0 requests sched = Some s →
  EvReturn b allowed ∈ trace s → allowed = false.
Proof.
  intros Hnone Hrun Hr. apply Inv_run in Hrun as HI. inv_fields HI.
  destruct allowed; [|done]. destruct (Hrt _ Hr) as (_ & n & m & _ & Ha).
  by rewrite absent_client_answer in Ha.
Qed.

Lemma denial_reported requests sched s b :
  run webWorkerBase ENABLE_WORKERS id0 requests sched = Some s →
  EvReturn b false ∈ trace s → EvEffect b (OnError 0 deniedMessage) ∈ trace s.
Proof.
  intros Hrun Hr. apply Inv_run in Hrun as HI. inv_fields HI.
  by destruct (Hre _ _ Hr) as (n & m & d & He & _).
Qed.

(** C3, as amended.  When the common worker client is absent every check
    that returns, returns [false]; but the evaluation task is dispatched to
    the main thread all the same (the null test of line 131 runs there), every
    return comes after the wait in [runInMode] has ended, and the completion
    that the main thread posts carries [false]. *)
Theorem absent_client_denied requests sched s :
  commonClient webWorkerBase = None →
  run webWorkerBase ENABLE_WORKERS id0 requests sched = Some s →
  (∀ b allowed, EvReturn b allowed ∈ trace s →
     allowed = false ∧ ∃ r, EvWait b r ∈ trace s) ∧
  (∀ b name mode, EvCreate b name mode ∈ trace s → EvDispatch b ∈ trace s) ∧
  (∀ b r mode, EvPost b r mode ∈ trace s → r = false).
Proof.
  intros Hnone Hrun. pose proof (Inv_run _ _ _ _ _ _ Hrun) as HI. inv_fields HI.
  repeat split.
  - eapply return_when_absent; eassumption.
  - eauto.
  - assumption.
  - intros b r mode Hp. destruct (Hxp _ _ _ Hp) as (n & _ & ->).
    by apply absent_client_answer.
Qed.

(** C4, as amended.  After construction, every access to the back-reference
    [m_webWorkerBase] is made by a thread that holds the bridge's mutex; the
    result slot is accessed by the worker thread only, and without the mutex.
    The test of the back-reference is made by [signalCompleted], which posts
    the completion task exactly when the back-reference is present;
    [didComplete] itself stores its argument whatever the back-reference
    is. *)
Theorem bridge_field_accesses requests sched s :
  run webWorkerBase ENABLE_WORKERS id0 requests sched = Some s →
  (∀ t b a locked,
     EvAccess t b WebWorkerBase_field a locked ∈ trace s → locked = true) ∧
  (∀ t b a locked,
     EvAccess t b Result_field a locked ∈ trace s → t = WorkerThread ∧ locked = false) ∧
  (∀ b r mode br,
     signalCompleted_post b r mode br =
     match m_webWorkerBase br with
     | Some _ => Some (DidComplete b r, mode)
     | None => None
     end) ∧
  (∀ r br, m_result (didComplete r br) = r ∧
           m_webWorkerBase (didComplete r br) = m_webWorkerBase br).
Proof.
  intros Hrun. apply Inv_run in Hrun as HI. inv_fields HI.
  repeat split; try done.
  all: first [ eapply Haw; eassumption | eapply Har; eassumption ].
Qed.

(** C5.  In every interleaving, once [cancel] has cleared the back-reference
    of a bridge (the write of line 102, made under the mutex), nothing is
    delivered for that bridge any more: no later event of the history is a
    completion task posted for it or a write of its result slot.  A
    [signalCompleted] that runs after a [cancel] posts no task and leaves the
    bridge as it is. *)
Theorem no_delivery_after_cancel requests sched s later earlier b locked :
  run webWorkerBase ENABLE_WORKERS id0 requests sched = Some s →
  trace s = (later ++ EvAccess WorkerThread b WebWorkerBase_field Write locked
                   :: earlier)%list →
  (∀ e, e ∈ later → ¬ delivery b e) ∧
  (∀ t t' br br1 r mode,
     cancel t br = Some br1 → signalCompleted t' b r mode br1 = Some (br1, None)).
Proof.
  intros Hrun Htr. apply Inv_run in Hrun as HI. inv_fields HI. split.
  - intros e He Hd. apply list_elem_of_split in He as (l1 & l2 & ->).
    rewrite <- app_assoc in Htr. simpl in Htr.
    apply (dropped_split _ _ _ _ b Hord Htr Hd).
    exists locked. apply elem_of_app. right. left.
  - intros t t' br br1 r mode [_ ->]%cancel_inv. reflexivity.
Qed.

(** C6.  The constructor sets the result slot to [false]; over the life of a
    bridge the slot is written at most once; while it has not been written it
    is still [false]; every write is made by the completion task
    [didComplete]; and a step that changes the slot of an existing bridge is
    the worker running that task inside [runInMode].  [cancel] and
    [signalCompleted] leave the slot alone, and [result] only reads. *)
Theorem result_written_at_most_once requests sched s b br :
  run webWorkerBase ENABLE_WORKERS id0 requests sched = Some s →
  heap s !! b = Some br →
  m_result (newBridge webWorkerBase) = false ∧
  (result_writes b s ≤ 1)%nat ∧
  (result_writes b s = 0 → m_result br = false) ∧
  (∀ t locked, EvAccess t b Result_field Write locked ∈ trace s →
     ∃ waiting r, EvPerform waiting (DidComplete b r) ∈ trace s) ∧
  (∀ l s' br', step webWorkerBase ENABLE_WORKERS l s = Some s' →
     heap s' !! b = Some br' → m_result br' ≠ m_result br →
     l = StepWorker ∧ br' = didComplete (m_result br') br) ∧
  (∀ t br1, cancel t br = Some br1 → m_result br1 = m_result br) ∧
  (∀ t r mode br1 post,
     signalCompleted t b r mode br = Some (br1, post) → m_result br1 = m_result br).
Proof.
  intros Hrun Hb. apply Inv_run in Hrun as HI. inv_fields HI.
  split; [done|]. split.
  { destruct (Honce b) as [Hle _]. unfold tokens in Hle. lia. }
  split.
  { intros Hz. destruct (m_result br) eqn:Hres'; [|done].
    pose proof (Hxn _ _ Hb Hres'). lia. }
  split; [eauto|]. split.
  { intros l s' br' Hstep Hb' Hne.
    destruct (m_result_step _ _ _ _ _ _ _ _ Hstep Hb Hb' Hne)
      as (-> & _ & _ & _ & _ & _ & _ & Hbr). done. }
  split.
  - intros t br1 [_ ->]%cancel_inv. done.
  - intros t r mode br1 post (_ & -> & _)%signalCompleted_inv. done.
Qed.

(** C7.  Two checks made on the same run loop get different wait-channel
    ids, whatever their subject names: the id of a check is the base tag
    followed by the decimal numeral of the counter value it drew, and that
    value grows with every check.  A completion task performed inside the
    wait of one check is the one posted for that very check. *)
Theorem wait_channel_ids_distinct requests sched s :
  run webWorkerBase ENABLE_WORKERS id0 requests sched = Some s →
  (∀ b name mode, EvCreate b name mode ∈ trace s →
     mode = allowIndexedDBMode +:+ pretty (id0 + N.of_nat b + 1)%N) ∧
  (∀ b b' name name' mode mode',
     EvCreate b name mode ∈ trace s → EvCreate b' name' mode' ∈ trace s →
     b ≠ b' → mode ≠ mode') ∧
  (∀ waiting b r, EvPerform waiting (DidComplete b r) ∈ trace s → waiting = b).
Proof.
  intros Hrun. apply Inv_run in Hrun as HI. inv_fields HI.
  repeat split.
  - intros b name mode Hc. apply (Hcr _ _ _ Hc).
  - intros b b' name name' mode mode' Hc Hc' Hne Heq. apply Hne.
    apply (modeOf_inj id0). by rewrite <- (Hcr _ _ _ Hc), <- (Hcr _ _ _ Hc').
  - assumption.
Qed.

(** C10.  In [openFromWorker] the value returned by
    [allowIDBFromWorkerThread] decides the effect: after [false],
    [callbacks->onError] has been called with code 0 and the message "The
    user denied permission to access the database." and the factory's [open]
    has not; after [true], the factory's [open] has been called with the
    name that was checked and a null frame, and [onError] has not. *)
Theorem openFromWorker_effect requests sched s b allowed :
  run webWorkerBase ENABLE_WORKERS id0 requests sched = Some s →
  EvReturn b allowed ∈ trace s →
  if allowed then
    (∃ name mode dataDir, EvCreate b name mode ∈ trace s ∧
                          EvEffect b (FactoryOpen name None dataDir) ∈ trace s) ∧
    (∀ code message, EvEffect b (OnError code message) ∉ trace s)
  else
    EvEffect b (OnError 0 deniedMessage) ∈ trace s ∧
    (∀ name webFrame dataDir, EvEffect b (FactoryOpen name webFrame dataDir) ∉ trace s).
Proof.
  intros Hrun Hr. apply Inv_run in Hrun as HI. inv_fields HI.
  destruct (Hre _ _ Hr) as (n & m & d & He & Hc).
  assert (∀ e, EvEffect b e ∈ trace s →
               ∃ n' d', e = openFromWorker_finish allowed n' d') as Hall.
  { intros e He'. destruct (Hef _ _ He') as (v & n' & m' & d' & -> & Hr' & _).
    rewrite (Hrf _ _ _ Hr Hr'). eauto. }
  destruct allowed; simpl in *.
  - split; [exists n, m, d; split; assumption|]. intros code message He'.
    destruct (Hall _ He') as (n' & d' & Heq). discriminate Heq.
  - split; [assumption|]. intros name webFrame dataDir He'.
    destruct (Hall _ He') as (n' & d' & Heq). discriminate Heq.
Qed.

(** C9.  With a null permission client the frame based entry points [open],
    [deleteDatabase] and [getDatabaseNames] skip the permission check and go
    on to the underlying factory, as they do when the client allows; on the
    worker path an absent common worker client has the opposite effect: every
    check that returns, returns [false], and [openFromWorker] reports the
    denial. *)
Theorem absent_permission_client_polarity requests sched s :
  commonClient webWorkerBase = None →
  run webWorkerBase ENABLE_WORKERS id0 requests sched = Some s →
  (∀ name webFrame dataDir,
     open None name webFrame dataDir = FactoryOpen name (Some webFrame) dataDir ∧
     deleteDatabase None name webFrame dataDir =
       FactoryDeleteDatabase name (Some webFrame) dataDir ∧
     getDatabaseNames None webFrame dataDir =
       FactoryGetDatabaseNames (Some webFrame) dataDir) ∧
  (∀ client name webFrame dataDir,
     frameAllowIndexedDB client name = true →
     open (Some client) name webFrame dataDir = open None name webFrame dataDir ∧
     deleteDatabase (Some client) name webFrame dataDir =
       deleteDatabase None name webFrame dataDir) ∧
  (∀ b allowed, EvReturn b allowed ∈ trace s →
     allowed = false ∧ EvEffect b (OnError 0 deniedMessage) ∈ trace s).
Proof.
  intros Hnone Hrun. split; [done|]. split.
  { intros client name webFrame dataDir Hallow. unfold open, deleteDatabase.
    by rewrite Hallow. }
  intros b allowed Hr.
  pose proof (return_when_absent _ _ _ _ _ Hnone Hrun Hr) as ->.
  split; [done|]. eapply denial_reported; eassumption.
Qed.

End Claims.

(** C8.  [cancel] is idempotent: a second call, and any number of further
    calls, leave the bridge as the first call left it, and the first call
    changes nothing but the back-reference, which it clears. *)
Theorem cancel_idempotent t br br1 :
  cancel t br = Some br1 →
  cancel t br1 = Some br1 ∧
  (∀ n, Nat.iter n (λ o, o ≫= cancel t) (Some br1) = Some br1) ∧
  m_webWorkerBase br1 = None ∧
  m_result br1 = m_result br ∧
  m_mutex br1 = m_mutex br.
Proof.
  intros [Hfree ->]%cancel_inv.
  assert (cancel t (Bridge (m_result br) None None) = Some (Bridge (m_result br) None None))
    as Hagain by reflexivity.
  split; [exact Hagain|]. split; [|by rewrite Hfree].
  induction n as [|n IH]; simpl; [done|]. rewrite IH. exact Hagain.
Qed.

(** * The scenarios, run *)

Ltac concrete := vm_compute; first [ reflexivity | mem ].

(** The authority grants "inbox": the check returns [true] and the factory's
    [open] is called. *)
Example inbox_granted :
  trace <$> run workerWithClient true 0 [inbox] answered =
  Some [EvEffect 0 (FactoryOpen "inbox" None "/idb"); EvReturn 0 true;
        EvAccess WorkerThread 0 Result_field Read false;
        EvWait 0 MessageQueueMessageReceived;
        EvAccess WorkerThread 0 Result_field Write false;
        EvPerform 0 (DidComplete 0 true);
        EvPost 0 true "allowIndexedDBMode1";
        EvAccess MainThread 0 WebWorkerBase_field Read true;
        EvDispatch 0; EvCreate 0 "inbox" "allowIndexedDBMode1"].
Proof. vm_compute. reflexivity. Qed.

(** The authority denies "outbox". *)
Example outbox_denied :
  trace <$> run workerWithClient true 0 [outbox] answered =
  Some [EvEffect 0 (OnError 0 deniedMessage); EvReturn 0 false;
        EvAccess WorkerThread 0 Result_field Read false;
        EvWait 0 MessageQueueMessageReceived;
        EvAccess WorkerThread 0 Result_field Write false;
        EvPerform 0 (DidComplete 0 false);
        EvPost 0 false "allowIndexedDBMode1";
        EvAccess MainThread 0 WebWorkerBase_field Read true;
        EvDispatch 0; EvCreate 0 "outbox" "allowIndexedDBMode1"].
Proof. vm_compute. reflexivity. Qed.

(** The loop is torn down before the worker has seen the answer: the posted
    completion stays in the queue and the check returns [false]. *)
Example torn_down_denied :
  (λ s, (trace s, m_messageQueue (runLoop s), m_result <$> heap s))
    <$> run workerWithClient true 0 [inbox] tornDown =
  Some ([EvEffect 0 (OnError 0 deniedMessage); EvReturn 0 false;
         EvAccess WorkerThread 0 WebWorkerBase_field Write true;
         EvPost 0 true "allowIndexedDBMode1";
         EvAccess MainThread 0 WebWorkerBase_field Read true;
         EvWait 0 MessageQueueTerminated;
         EvDispatch 0; EvCreate 0 "inbox" "allowIndexedDBMode1"],
        [(DidComplete 0 true, "allowIndexedDBMode1")], [false]).
Proof. vm_compute. reflexivity. Qed.

(** The main thread answers after the cancellation: nothing is posted. *)
Example late_answer_dropped :
  (λ s, (trace s, m_messageQueue (runLoop s)))
    <$> run workerWithClient true 0 [inbox] tornDownEarly =
  Some ([EvAccess MainThread 0 WebWorkerBase_field Read true;
         EvEffect 0 (OnError 0 deniedMessage); EvReturn 0 false;
         EvAccess WorkerThread 0 WebWorkerBase_field Write true;
         EvWait 0 MessageQueueTerminated;
         EvDispatch 0; EvCreate 0 "inbox" "allowIndexedDBMode1"], []).
Proof. vm_compute. reflexivity. Qed.

(** A parked worker cannot move: the schedule that asks it to is refused. *)
Example parked_worker_waits :
  run workerWithClient true 0 [inbox] [StepWorker; StepWorker] = None.
Proof. vm_compute. reflexivity. Qed.

(** Without [ENABLE(WORKERS)] the body of [openFromWorker] is empty. *)
Example workers_disabled :
  (λ s, (trace s, pending s, worker s))
    <$> run workerWithClient false 0 [inbox] [StepWorker] = Some ([], [], WIdle).
Proof. vm_compute. reflexivity. Qed.

(** * Witnesses and counterexamples *)

Lemma allowIDBFromWorkerThread_result_witness :
  ∃ s, run workerWithClient true 0 [inbox] answered = Some s ∧
       EvCreate 0 "inbox" "allowIndexedDBMode1" ∈ trace s ∧
       EvReturn 0 true ∈ trace s ∧
       (∃ client, commonClient workerWithClient = Some client ∧
                  allowIndexedDB client "inbox" = true) ∧
       EvWait 0 MessageQueueMessageReceived ∈ trace s ∧
       EvWait 0 MessageQueueTerminated ∉ trace s.
Proof.
  eexists. split; [concrete|].
  assert (EvCreate 0 "inbox" "allowIndexedDBMode1"
            ∈ trace (default (init 0 []) (run workerWithClient true 0 [inbox] answered)))
    as Hc by concrete.
  assert (EvReturn 0 true
            ∈ trace (default (init 0 []) (run workerWithClient true 0 [inbox] answered)))
    as Hr by concrete.
  split; [exact Hc|]. split; [exact Hr|].
  refine (proj1 (allowIDBFromWorkerThread_result workerWithClient true 0 [inbox] answered
                   _ 0 "inbox" "allowIndexedDBMode1" true _ Hc Hr) eq_refl).
  concrete.
Defined.

Lemma terminated_wait_cancels_witness :
  ∃ s, run workerWithClient true 0 [inbox] [StepWorker; Kill; StepWorker] = Some s ∧
       EvWait 0 MessageQueueTerminated ∈ trace s ∧
       ∃ more s', (length more ≤ 5)%nat ∧
         exec workerWithClient true more s = Some s' ∧
         EvReturn 0 false ∈ trace s' ∧ cleared 0 (trace s') ∧
         ∀ locked, EvAccess WorkerThread 0 Result_field Read locked ∉ trace s'.
Proof.
  eexists. split; [concrete|].
  assert (EvWait 0 MessageQueueTerminated
            ∈ trace (default (init 0 [])
                       (run workerWithClient true 0 [inbox] [StepWorker; Kill; StepWorker])))
    as Ht by concrete.
  split; [exact Ht|].
  refine (proj2 (proj2 (terminated_wait_cancels workerWithClient true 0 [inbox]
                          [StepWorker; Kill; StepWorker] _ 0 _ Ht))).
  concrete.
Defined.

(** The claim C3 as it was stated fails: with the client absent the task is
    dispatched to the main thread all the same, and the worker parks in
    [runInMode] until that task has been run. *)
Lemma absent_client_dispatch_counterexample :
  ∃ s, commonClient workerWithoutClient = None ∧
       run workerWithoutClient true 0 [inbox] [StepWorker] = Some s ∧
       EvDispatch 0 ∈ trace s ∧
       mainQueue s = [AllowIndexedDBTask 0 None "inbox" "allowIndexedDBMode1"] ∧
       worker s = WRunInMode 0 "allowIndexedDBMode1" inbox ∧
       step workerWithoutClient true StepWorker s = None.
Proof.
  eexists. split; [reflexivity|]. split; [concrete|].
  repeat split; concrete.
Qed.

Lemma absent_client_denied_witness :
  ∃ s, commonClient workerWithoutClient = None ∧
       run workerWithoutClient true 0 [inbox] answered = Some s ∧
       EvReturn 0 false ∈ trace s ∧
       (∀ b allowed, EvReturn b allowed ∈ trace s →
          allowed = false ∧ ∃ r, EvWait b r ∈ trace s) ∧
       (∀ b name mode, EvCreate b name mode ∈ trace s → EvDispatch b ∈ trace s) ∧
       (∀ b r mode, EvPost b r mode ∈ trace s → r = false).
Proof.
  eexists. split; [reflexivity|]. split; [concrete|]. split; [concrete|].
  refine (absent_client_denied workerWithoutClient true 0 [inbox] answered _ eq_refl _).
  concrete.
Defined.

(** The claim C4 as it was stated fails: the write of line 141 and the read
    of line 107 are made without the mutex, and [didComplete] stores its
    argument into a bridge whose back-reference has been cleared. *)
Lemma unlocked_result_access_counterexample :
  ∃ s, run workerWithClient true 0 [inbox] answered = Some s ∧
       EvAccess WorkerThread 0 Result_field Write false ∈ trace s ∧
       EvAccess WorkerThread 0 Result_field Read false ∈ trace s ∧
       m_result (didComplete true (Bridge false None None)) = true.
Proof.
  eexists. split; [concrete|]. repeat split; concrete.
Qed.

Lemma bridge_field_accesses_witness :
  ∃ s, run workerWithClient true 0 [inbox] tornDown = Some s ∧
       (∀ t b a locked,
          EvAccess t b WebWorkerBase_field a locked ∈ trace s → locked = true) ∧
       (∀ t b a locked,
          EvAccess t b Result_field a locked ∈ trace s →
          t = WorkerThread ∧ locked = false).
Proof.
  eexists. split; [concrete|].
  destruct (bridge_field_accesses workerWithClient true 0 [inbox] tornDown
              (default (init 0 []) (run workerWithClient true 0 [inbox] tornDown)))
    as (H1 & H2 & _); [concrete|].
  split; [exact H1|exact H2].
Defined.

Lemma no_delivery_after_cancel_witness :
  ∃ s, run workerWithClient true 0 [inbox] tornDownEarly = Some s ∧
       trace s =
         ([EvAccess MainThread 0 WebWorkerBase_field Read true;
           EvEffect 0 (OnError 0 deniedMessage); EvReturn 0 false]
          ++ EvAccess WorkerThread 0 WebWorkerBase_field Write true
          :: [EvWait 0 MessageQueueTerminated; EvDispatch 0;
              EvCreate 0 "inbox" "allowIndexedDBMode1"])%list ∧
       ∀ e, e ∈ [EvAccess MainThread 0 WebWorkerBase_field Read true;
                 EvEffect 0 (OnError 0 deniedMessage); EvReturn 0 false] →
            ¬ delivery 0 e.
Proof.
  eexists. split; [concrete|]. split; [concrete|].
  refine (proj1 (no_delivery_after_cancel workerWithClient true 0 [inbox] tornDownEarly
                   _ _ _ 0 true _ _)); concrete.
Defined.

Lemma result_written_at_most_once_witness :
  ∃ s, run workerWithClient true 0 [inbox] answered = Some s ∧
       heap s !! 0 = Some (Bridge true None (Some workerWithClient)) ∧
       result_writes 0 s = 1 ∧
       (result_writes 0 s ≤ 1)%nat.
Proof.
  eexists. split; [concrete|]. split; [concrete|]. split; [concrete|].
  refine (proj1 (proj2 (result_written_at_most_once workerWithClient true 0 [inbox] answered
                          _ 0 (Bridge true None (Some workerWithClient)) _ _))); concrete.
Defined.

Lemma wait_channel_ids_distinct_witness :
  ∃ s, run workerWithClient true 0 [inbox; inbox] (answered ++ answered) = Some s ∧
       EvCreate 0 "inbox" "allowIndexedDBMode1" ∈ trace s ∧
       EvCreate 1 "inbox" "allowIndexedDBMode2" ∈ trace s ∧
       (∀ b b' name name' mode mode',
          EvCreate b name mode ∈ trace s → EvCreate b' name' mode' ∈ trace s →
          b ≠ b' → mode ≠ mode') ∧
       (∀ waiting b r, EvPerform waiting (DidComplete b r) ∈ trace s → waiting = b).
Proof.
  eexists. split; [concrete|]. split; [concrete|]. split; [concrete|].
  refine (proj2 (wait_channel_ids_distinct workerWithClient true 0 [inbox; inbox]
                   (answered ++ answered) _ _)).
  concrete.
Defined.

Lemma cancel_idempotent_witness :
  cancel WorkerThread (Bridge true None (Some workerWithClient)) =
    Some (Bridge true None None) ∧
  cancel WorkerThread (Bridge true None None) = Some (Bridge true None None).
Proof.
  split; [reflexivity|].
  exact (proj1 (cancel_idempotent WorkerThread (Bridge true None (Some workerWithClient))
                  (Bridge true None None) eq_refl)).
Defined.

Lemma absent_permission_client_polarity_witness :
  ∃ s, commonClient workerWithoutClient = None ∧
       run workerWithoutClient true 0 [inbox] answered = Some s ∧
       open None "inbox" 7 "/idb" = FactoryOpen "inbox" (Some 7) "/idb" ∧
       EvReturn 0 false ∈ trace s ∧
       ∀ b allowed, EvReturn b allowed ∈ trace s →
         allowed = false ∧ EvEffect b (OnError 0 deniedMessage) ∈ trace s.
Proof.
  eexists. split; [reflexivity|]. split; [concrete|]. split; [reflexivity|].
  split; [concrete|].
  refine (proj2 (proj2 (absent_permission_client_polarity workerWithoutClient true 0 [inbox]
                          answered _ eq_refl _))).
  concrete.
Defined.

Lemma openFromWorker_effect_witness :
  ∃ s, run workerWithClient true 0 [inbox] answered = Some s ∧
       EvReturn 0 true ∈ trace s ∧
       (∃ name mode dataDir, EvCreate 0 name mode ∈ trace s ∧
                             EvEffect 0 (FactoryOpen name None dataDir) ∈ trace s) ∧
       (∀ code message, EvEffect 0 (OnError code message) ∉ trace s).
Proof.
  eexists. split; [concrete|].
  assert (EvReturn 0 true
            ∈ trace (default (init 0 []) (run workerWithClient true 0 [inbox] answered)))
    as Hr by concrete.
  split; [exact Hr|].
  refine (openFromWorker_effect workerWithClient true 0 [inbox] answered _ 0 true _ Hr).
  concrete.
Defined.

(** * Further properties of the rendezvous *)

(** ** More bookkeeping over the history *)

Definition is_post (b : bridge_ref) (e : event) : bool :=
  match e with EvPost b' _ _ => bool_decide (b' = b) | _ => false end.

Definition is_dispatch (b : bridge_ref) (e : event) : bool :=
  match e with EvDispatch b' => bool_decide (b' = b) | _ => false end.

Definition is_effect (b : bridge_ref) (e : event) : bool :=
  match e with EvEffect b' _ => bool_decide (b' = b) | _ => false end.

Definition is_return (b : bridge_ref) (e : event) : bool :=
  match e with EvReturn b' _ => bool_decide (b' = b) | _ => false end.

(** The worker is inside the call served by bridge [b]. *)
Definition in_call (w : WorkerPC) (b : bridge_ref) : bool :=
  match w with
  | WIdle => false
  | WRunInMode b' _ _ | WCancelLock b' _ | WCancelClear b' _
  | WCancelUnlock b' _ | WResult b' _ => bool_decide (b' = b)
  end.

(** The completion for [b] has not reached the worker's queue yet. *)
Definition before_post (s : State) (b : bridge_ref) : nat :=
  count (is_task_for b) (mainQueue s) + signalling (main s) b.

Definition Inv_counts (s : State) : Prop :=
  ∀ b,
    (before_post s b + count (is_post b) (trace s) ≤ 1)%nat ∧
    (count (is_effect b) (trace s) + (if in_call (worker s) b then 1 else 0) ≤ 1)%nat ∧
    count (is_return b) (trace s) = count (is_effect b) (trace s) ∧
    count (is_dispatch b) (trace s) = (if bool_decide (b < length (heap s)) then 1 else 0) ∧
    ((length (heap s) ≤ b)%nat →
       before_post s b + count (is_post b) (trace s) = 0 ∧
       count (is_effect b) (trace s) = 0 ∧ in_call (worker s) b = false).

Section MoreInvariants.

Variable webWorkerBase : WebWorkerBase.
Variable ENABLE_WORKERS : bool.
Variable id0 : N.

Lemma Inv_counts_init requests : Inv_counts (init id0 requests).
Proof.
  intros b. unfold before_post. simpl. repeat split; lia.
Qed.

Lemma Inv_counts_step l s s' :
  Inv_counts s → step webWorkerBase ENABLE_WORKERS l s = Some s' → Inv_counts s'.
Proof.
  intros Hon H b0. step_inv H.
  all: try (pose proof (Hon (length hp)) as Hnew).
  all: specialize (Hon b0); unfold before_post, returnToOpenFromWorker in *.
  all: simpl in *.
  all: rewrite ?count_app, ?length_app, ?length_insert in *; simpl in *.
  all: repeat match goal with
       | E : _ !! _ = Some _ |- _ => apply lookup_lt_Some in E
       end.
  all: repeat case_bool_decide; subst; simpl in *; try lia.
  all: destruct w; simpl in *; repeat case_bool_decide; subst; simpl in *; lia.
Qed.

(** *** While a check waits, its completion is under way *)

Record Inv_more (s : State) : Prop := {
  mo_received_written : ∀ b,
    EvWait b MessageQueueMessageReceived ∈ trace s → (1 ≤ result_writes b s)%nat;
  mo_terminated_killed : ∀ b,
    EvWait b MessageQueueTerminated ∈ trace s → m_killed (runLoop s) = true;
  mo_wwb : ∀ b br,
    heap s !! b = Some br → m_webWorkerBase br = None → cleared b (trace s);
  mo_waiting : ∀ b mode req,
    worker s = WRunInMode b mode req →
    ¬ cleared b (trace s) ∧
    before_post s b + count (is_completion_for b) (m_messageQueue (runLoop s)) = 1
}.

Lemma Inv_more_init requests : Inv_more (init id0 requests).
Proof. split; simpl; try done; intros; elems. Qed.

Lemma Inv_more_step l s s' :
  Inv_struct webWorkerBase id0 s → Inv_once s → Inv_more s →
  step webWorkerBase ENABLE_WORKERS l s = Some s' → Inv_more s'.
Proof.
  intros [_ Hev Hcr _ _ _ Hq Hsw _ _] Honce [Hrw Htk Hwwb Hwait] H.
  step_inv H.
  all: try (pose proof (takeForMode_elem _ _ _ _ Etake) as [Hin _]).
  all: try (destruct (Hq _ _ _ Hin) as (name0 & Hc0 & ->)).
  all: try (pose proof (proj2 (Honce (length hp)) (Nat.le_refl _)) as Hzero).
  all: unfold returnToOpenFromWorker, result_writes, before_post, tokens in *; simpl in *.
  all: split; simpl;
    [ intros b0 H0; unfold result_writes; simpl; elems;
      try (repeat case_bool_decide; try lia;
           eapply Nat.le_trans; [eapply Hrw; eassumption|lia])
    | intros b0 H0; elems; eauto
    | intros b0 br0 Hl Hn; lookup_cases Hl; unlock_lock; simpl in *; try done;
      try (eapply cleared_cons; eauto; fail);
      try (repeat eapply cleared_cons; eauto; fail);
      try (eexists; mem); eauto
    | intros b0 mode0 req0 Hpc; unfold before_post; simpl; simplify_eq ].
  all: try (destruct (Hwait _ _ _ eq_refl) as [Hnc Hcnt]; split;
            [ intros Hcl;
              repeat (apply cleared_inv in Hcl as [[? Hcl]|Hcl]; [discriminate Hcl|]);
              done
            | rewrite ?count_app; simpl in *;
              repeat case_bool_decide; subst; simpl in *; try lia ]).
  - split.
    + intros [lk Hcl]. elems. apply Hev in Hcl. simpl in Hcl. lia.
    + rewrite count_app. simpl. rewrite bool_decide_eq_true_2 by done. lia.
  - assert (b' = b) as ->.
    { apply (modeOf_inj id0). rewrite <- (Hcr _ _ _ Hsw), <- (Hcr _ _ _ Hc0). done. }
    rewrite bool_decide_eq_true_2 by done. lia.
  - exfalso. apply Hnc. eapply Hwwb; eassumption.
Qed.

(** *** Everything together *)

Record Inv_all (s : State) : Prop := {
  all_inv : Inv webWorkerBase id0 s;
  all_counts : Inv_counts s;
  all_more : Inv_more s
}.


Lemma Inv_all_init requests : Inv_all (init id0 requests).
Proof.
  split; auto using Inv_init, Inv_counts_init, Inv_more_init.
Qed.

Lemma Inv_all_step l s s' :
  Inv_all s → step webWorkerBase ENABLE_WORKERS l s = Some s' → Inv_all s'.
Proof.
  intros [H1 H2 H3] H. split.
  - eapply Inv_step; eassumption.
  - eapply Inv_counts_step; eassumption.
  - eapply Inv_more_step; try eassumption; apply H1.
Qed.

Lemma Inv_all_exec sched s s' :
  Inv_all s → exec webWorkerBase ENABLE_WORKERS sched s = Some s' → Inv_all s'.
Proof.
  revert s. induction sched as [|l sched IH]; intros s Hs H; simpl in H.
  - by inversion H; subst.
  - destruct (step webWorkerBase ENABLE_WORKERS l s) as [s1|] eqn:E; simpl in H; [|done].
    eauto using Inv_all_step.
Qed.

Lemma Inv_all_run requests sched s :
  run webWorkerBase ENABLE_WORKERS id0 requests sched = Some s → Inv_all s.
Proof. apply Inv_all_exec, Inv_all_init. Qed.

(** *** A bridge is either written or cancelled *)

Record Inv_paths (s : State) : Prop := {
  pa_cleared_terminated : ∀ b,
    cleared b (trace s) → EvWait b MessageQueueTerminated ∈ trace s;
  pa_written_received : ∀ t b l,
    EvAccess t b Result_field Write l ∈ trace s →
    EvWait b MessageQueueMessageReceived ∈ trace s
}.

Lemma Inv_paths_init requests : Inv_paths (init id0 requests).
Proof. split; simpl; intros; elems. destruct H as [? H]. elems. Qed.

Lemma Inv_paths_step l s s' :
  Inv_struct webWorkerBase id0 s → Inv_worker s → Inv_paths s →
  step webWorkerBase ENABLE_WORKERS l s = Some s' → Inv_paths s'.
Proof.
  intros [_ Hev Hcr _ _ _ Hq Hsw _ _] [Hw _ _ _ _ _ _] [Hct Hwr] H.
  step_inv H.
  all: try (pose proof (takeForMode_elem _ _ _ _ Etake) as [Hin _]).
  all: try (destruct (Hq _ _ _ Hin) as (name0 & Hc0 & ->)).
  all: unfold returnToOpenFromWorker in *; simpl in *.
  all: split; simpl;
    [ intros b0 Hcl;
      repeat (apply cleared_inv in Hcl as [[? Hcl]|Hcl]; [simplify_eq|]);
      try (apply Hct in Hcl; mem);
      try (destruct Hw as (_ & Ht & _); mem)
    | intros t0 b0 l0 H0; elems; try (apply Hwr in H0; mem) ].
  assert (b' = b) as ->.
  { apply (modeOf_inj id0). rewrite <- (Hcr _ _ _ Hsw), <- (Hcr _ _ _ Hc0). done. }
  mem.
Qed.

End MoreInvariants.

Lemma Inv_paths_exec webWorkerBase ENABLE_WORKERS id0 sched s s' :
  Inv webWorkerBase id0 s → Inv_paths s →
  exec webWorkerBase ENABLE_WORKERS sched s = Some s' → Inv_paths s'.
Proof.
  revert s. induction sched as [|l sched IH]; intros s HI Hp H; simpl in H.
  - by inversion H; subst.
  - destruct (step webWorkerBase ENABLE_WORKERS l s) as [s1|] eqn:E; simpl in H; [|done].
    apply (IH s1); [eapply Inv_step; eassumption| |assumption].
    eapply Inv_paths_step; try eassumption; apply HI.
Qed.

Lemma Inv_paths_run webWorkerBase ENABLE_WORKERS id0 requests sched s :
  run webWorkerBase ENABLE_WORKERS id0 requests sched = Some s → Inv_paths s.
Proof.
  intros H. eapply (Inv_paths_exec webWorkerBase ENABLE_WORKERS id0);
    [apply Inv_init|apply Inv_paths_init|exact H].
Qed.

(** A step never restores a cleared back-reference. *)
Lemma cleared_reference_step webWorkerBase ENABLE_WORKERS l s s' bx brx :
  step webWorkerBase ENABLE_WORKERS l s = Some s' →
  heap s !! bx = Some brx → m_webWorkerBase brx = None →
  ∃ brx', heap s' !! bx = Some brx' ∧ m_webWorkerBase brx' = None.
Proof.
  intros H Hb Hn. step_inv H; simpl in *.
  all: try (eexists; split; [eassumption|assumption]).
  all: try (exists brx; split; [by apply lookup_app_l_Some|assumption]).
  all: match goal with
       | |- context [<[?b1 := _]> _ !! ?b2] =>
           destruct (decide (b1 = b2)) as [->|];
           [ rewrite list_lookup_insert_eq by (eapply lookup_lt_Some; eassumption)
           | rewrite list_lookup_insert_ne by assumption ]
       end.
  all: unlock_lock; simplify_eq; eexists; (split; [reflexivity || eassumption|]); done.
Qed.

Lemma bridge_persists_step webWorkerBase ENABLE_WORKERS l s s' bx brx :
  step webWorkerBase ENABLE_WORKERS l s = Some s' →
  heap s !! bx = Some brx → is_Some (heap s' !! bx).
Proof.
  intros H Hb. apply lookup_lt_is_Some. apply lookup_lt_Some in Hb.
  step_inv H; simpl in *; rewrite ?length_insert, ?length_app; simpl; lia.
Qed.

Lemma count_pos {A} (f : A → bool) l :
  (0 < count f l)%nat → ∃ x, x ∈ l ∧ f x = true.
Proof.
  induction l as [|x l IH]; simpl; [lia|]. destruct (f x) eqn:E.
  - intros _. exists x. split; [left|done].
  - intros H. destruct IH as (y & Hy & Hf); [lia|]. exists y. split; [by right|done].
Qed.

(** Once a check has returned, no step changes the result slot of its
    bridge. *)
Lemma result_frozen_step webWorkerBase ENABLE_WORKERS id0 l s s' bx v brx brx' :
  Inv webWorkerBase id0 s → EvReturn bx v ∈ trace s →
  step webWorkerBase ENABLE_WORKERS l s = Some s' →
  heap s !! bx = Some brx → heap s' !! bx = Some brx' →
  m_result brx' = m_result brx.
Proof.
  intros HI Hr Hstep Hb Hb'. inv_fields HI.
  destruct (decide (m_result brx' = m_result brx)) as [|Hne]; [done|exfalso].
  destruct (m_result_step _ _ _ _ _ _ _ _ Hstep Hb Hb' Hne)
    as (_ & waiting & mode & req & q & Hpc & Htake & _).
  apply takeForMode_elem in Htake as [Hin _].
  destruct (Hq _ _ _ Hin) as (n & Hc & _).
  rewrite Hpc in Hsw, Hw. simpl in Hw.
  assert (waiting = bx) as ->.
  { apply (modeOf_inj id0). by rewrite <- (Hcr _ _ _ Hsw), <- (Hcr _ _ _ Hc). }
  destruct Hw as (_ & Hnr & _). exact (Hnr _ Hr).
Qed.

Section Extras.

Variable webWorkerBase : WebWorkerBase.
Variable ENABLE_WORKERS : bool.
Variable id0 : N.

(** X1.  The mutex of a bridge is owned by the worker exactly while the
    worker is between lines 101 and 103 of [cancel] on that bridge, and by
    the main thread exactly while it is between lines 113 and 116 of
    [signalCompleted] on it; the two are never there together, and when both
    threads are outside those methods the mutex is free. *)
Theorem mutex_owned_inside_methods requests sched s b br :
  run webWorkerBase ENABLE_WORKERS id0 requests sched = Some s →
  heap s !! b = Some br →
  (m_mutex br = Some WorkerThread ↔ worker_holds (worker s) b = true) ∧
  (m_mutex br = Some MainThread ↔ main_holds (main s) b = true) ∧
  ¬ (worker_holds (worker s) b = true ∧ main_holds (main s) b = true) ∧
  (worker s = WIdle → main s = MIdle → m_mutex br = None).
Proof.
  intros Hrun Hb. apply Inv_run in Hrun as HI. inv_fields HI.
  rewrite (Hown _ _ Hb). unfold owner. specialize (Hexcl b).
  destruct (worker_holds (worker s) b) eqn:Ew, (main_holds (main s) b) eqn:Em;
    try (specialize (Hexcl eq_refl); discriminate Hexcl).
  all: repeat split; try done; try (by intros [? ?]).
  all: intros Hw' Hm'; rewrite Hw' in Ew; rewrite ?Hm' in Em; done.
Qed.

(** X2.  Nothing restores a cleared back-reference: once [m_webWorkerBase]
    of a bridge is null it is null in every later state, whatever the two
    threads do. *)
Theorem cancelled_bridge_stays_cancelled more s s' b br :
  exec webWorkerBase ENABLE_WORKERS more s = Some s' →
  heap s !! b = Some br → m_webWorkerBase br = None →
  ∃ br', heap s' !! b = Some br' ∧ m_webWorkerBase br' = None.
Proof.
  revert s br. induction more as [|l more IH]; intros s br H Hb Hn; simpl in H.
  - inversion H; subst. eauto.
  - destruct (step webWorkerBase ENABLE_WORKERS l s) as [s1|] eqn:E; simpl in H; [|done].
    destruct (cleared_reference_step _ _ _ _ _ _ _ E Hb Hn) as (br1 & Hb1 & Hn1).
    eapply IH; eassumption.
Qed.

(** X3.  Built without [ENABLE(WORKERS)], [openFromWorker] does nothing: no
    bridge is made, nothing is dispatched, neither [onError] nor the
    factory's [open] is called, and the calls are simply used up. *)
Theorem workers_disabled_inert requests sched s :
  ENABLE_WORKERS = false →
  run webWorkerBase ENABLE_WORKERS id0 requests sched = Some s →
  trace s = [] ∧ heap s = [] ∧ mainQueue s = [] ∧ m_messageQueue (runLoop s) = [] ∧
  worker s = WIdle ∧ main s = MIdle ∧
  (length (pending s) ≤ length requests)%nat.
Proof.
  intros Hoff. unfold run.
  assert (∀ s0, trace s0 = [] ∧ heap s0 = [] ∧ mainQueue s0 = [] ∧
                m_messageQueue (runLoop s0) = [] ∧ worker s0 = WIdle ∧ main s0 = MIdle ∧
                (length (pending s0) ≤ length requests)%nat →
          exec webWorkerBase ENABLE_WORKERS sched s0 = Some s →
          trace s = [] ∧ heap s = [] ∧ mainQueue s = [] ∧
          m_messageQueue (runLoop s) = [] ∧ worker s = WIdle ∧ main s = MIdle ∧
          (length (pending s) ≤ length requests)%nat) as Hgen.
  { induction sched as [|l sched IH]; intros s0 H0 H; simpl in H.
    - by inversion H; subst.
    - destruct (step webWorkerBase ENABLE_WORKERS l s0) as [s1|] eqn:E; simpl in H; [|done].
      apply (IH s1); [|assumption]. clear IH H.
      destruct H0 as (Ht & Hh & Hq & Hwq & Hw & Hm & Hp).
      destruct s0 as [hp rl mq w pd m tr]; simpl in *; subst.
      destruct l; simpl in E.
      + unfold worker_step in E; simpl in E. destruct pd as [|rq pd]; [done|].
        inversion E; subst; simpl in *. repeat split; try done. lia.
      + unfold main_step in E; simpl in E. done.
      + inversion E; subst; simpl. done. }
  apply Hgen. simpl. repeat split; done.
Qed.

(** X4.  Once the run loop has been terminated, every check that has not
    already been woken by its completion returns [false], whether it was
    parked at that moment or is made later. *)
Theorem checks_after_teardown_denied requests sched s more s' b allowed :
  run webWorkerBase ENABLE_WORKERS id0 requests sched = Some s →
  m_killed (runLoop s) = true →
  EvWait b MessageQueueMessageReceived ∉ trace s →
  exec webWorkerBase ENABLE_WORKERS more s = Some s' →
  EvReturn b allowed ∈ trace s' →
  allowed = false ∧ EvWait b MessageQueueTerminated ∈ trace s'.
Proof.
  intros Hrun Hk Hnr Hex Hr.
  pose proof (Inv_exec _ _ _ _ _ _ (Inv_run _ _ _ _ _ _ Hrun) Hex) as HI'.
  assert (m_killed (runLoop s') = true ∧
          EvWait b MessageQueueMessageReceived ∉ trace s') as [_ Hnr'].
  { clear Hrun HI' Hr. rename b into bx. revert s Hk Hnr Hex.
    induction more as [|l more IH]; intros s Hk Hnr Hex; simpl in Hex.
    - by inversion Hex; subst.
    - destruct (step webWorkerBase ENABLE_WORKERS l s) as [s1|] eqn:E; simpl in Hex; [|done].
      apply (IH s1); [| |assumption]; clear IH Hex.
      + step_inv E; simpl in *; done.
      + intros Hin. apply Hnr. clear Hnr.
        step_inv E; unfold returnToOpenFromWorker in *; simpl in *; elems; try done.
        all: congruence. }
  inv_fields HI'.
  destruct (Hrw _ _ Hr) as ([|] & Hwt); [|done].
  split; [|assumption]. destruct (Hte _ Hwt) as (_ & _ & Hf). by destruct (Hf _ Hr).
Qed.

(** X5.  Every bridge that was constructed has had its evaluation task
    dispatched to the main thread exactly once, and [signalCompleted] posts
    at most one completion task for it: a bridge whose task is still waiting
    for the main thread, or is being signalled, has none posted yet. *)
Theorem one_task_one_completion requests sched s b :
  run webWorkerBase ENABLE_WORKERS id0 requests sched = Some s →
  count (is_dispatch b) (trace s) = (if bool_decide (b < length (heap s)) then 1 else 0) ∧
  (count (is_post b) (trace s) ≤ 1)%nat ∧
  ((0 < before_post s b)%nat → count (is_post b) (trace s) = 0).
Proof.
  intros Hrun. apply Inv_all_run in Hrun as [_ Hc _].
  destruct (Hc b) as (Hp & _ & _ & Hd & _). repeat split; [assumption|lia|lia].
Qed.

(** X6.  [openFromWorker] notifies its collaborators exactly once per call
    that has finished, never twice and never before the check has returned:
    for each call the number of effects ([onError] or the factory's [open])
    equals the number of returns of its check, is at most one, and is zero
    while the worker is still inside the call. *)
Theorem callbacks_notified_once requests sched s b :
  run webWorkerBase ENABLE_WORKERS id0 requests sched = Some s →
  (count (is_effect b) (trace s) ≤ 1)%nat ∧
  count (is_return b) (trace s) = count (is_effect b) (trace s) ∧
  (in_call (worker s) b = true → count (is_effect b) (trace s) = 0).
Proof.
  intros Hrun. apply Inv_all_run in Hrun as [_ Hc _].
  destruct (Hc b) as (_ & He & Hr & _). repeat split; [lia|assumption|].
  intros Hin. rewrite Hin in He. lia.
Qed.

(** X7.  After a check has returned, the result slot of its bridge never
    changes again, whatever the two threads do later: a completion that
    arrives late is not written into it. *)
Theorem result_frozen_after_return requests sched s more s' b allowed br br' :
  run webWorkerBase ENABLE_WORKERS id0 requests sched = Some s →
  EvReturn b allowed ∈ trace s →
  exec webWorkerBase ENABLE_WORKERS more s = Some s' →
  heap s !! b = Some br → heap s' !! b = Some br' →
  m_result br' = m_result br.
Proof.
  intros Hrun Hr Hex Hb Hb'. apply Inv_run in Hrun as HI. clear Hrun.
  revert s br HI Hr Hex Hb. induction more as [|l more IH]; intros s br HI Hr Hex Hb;
    simpl in Hex.
  - inversion Hex; subst. rewrite Hb in Hb'. by inversion Hb'.
  - destruct (step webWorkerBase ENABLE_WORKERS l s) as [s1|] eqn:E; simpl in Hex; [|done].
    destruct (bridge_persists_step _ _ _ _ _ _ _ E Hb) as [br1 Hb1].
    rewrite <- (result_frozen_step _ _ _ _ _ _ _ _ _ _ HI Hr E Hb Hb1).
    apply (IH s1); try assumption.
    + eapply Inv_step; eassumption.
    + eapply step_trace_mono; eassumption.
Qed.

(** X8.  [cancel] is reached on the teardown path only, and a bridge is
    either written or cancelled, never both: a bridge whose back-reference
    is null belongs to a check whose wait ended with
    [MessageQueueTerminated] on a terminated loop, its result slot has never
    been written and is still [false]. *)
Theorem cancelled_bridge_never_written requests sched s b br :
  run webWorkerBase ENABLE_WORKERS id0 requests sched = Some s →
  heap s !! b = Some br → m_webWorkerBase br = None →
  m_result br = false ∧ result_writes b s = 0 ∧
  EvWait b MessageQueueTerminated ∈ trace s ∧ m_killed (runLoop s) = true.
Proof.
  intros Hrun Hb Hn. pose proof (Inv_paths_run _ _ _ _ _ _ Hrun) as [Hct Hwr].
  apply Inv_all_run in Hrun as [HI _ [_ _ Hwwb _]]. inv_fields HI.
  pose proof (Hwwb _ _ Hb Hn) as Hgone. pose proof (Hct _ Hgone) as Ht.
  destruct (Hte _ Ht) as (Hnrec & _).
  assert (result_writes b s = 0) as Hz.
  { destruct (result_writes b s) eqn:Ez; [done|exfalso].
    destruct (count_pos (is_result_write b) (trace s)) as (e & He & Hf).
    { unfold result_writes in Ez. lia. }
    destruct e as [| |t b' [|] [|] l| | | | |]; simpl in Hf; try done.
    apply bool_decide_eq_true in Hf as ->. eapply Hnrec, Hwr, He. }
  repeat split; try done; [|eauto].
  destruct (m_result br) eqn:Er; [|done]. pose proof (Hxn _ _ Hb Er). lia.
Qed.

(** X9.  A thread is refused a move in three situations only: it has
    nothing to do; it is the worker parked in [runInMode] while the loop is
    alive and holds no task for its mode; or it waits for a bridge's mutex
    (line 101 or line 113) while the other thread is inside its own locked
    section on that bridge and is able to move.  The mutex therefore never
    stops both threads. *)
Theorem refused_moves requests sched s :
  run webWorkerBase ENABLE_WORKERS id0 requests sched = Some s →
  (step webWorkerBase ENABLE_WORKERS StepMain s = None →
     (main s = MIdle ∧ mainQueue s = []) ∨
     (∃ b r mode, main s = MSignalLock b r mode ∧ worker_holds (worker s) b = true ∧
                  is_Some (step webWorkerBase ENABLE_WORKERS StepWorker s))) ∧
  (step webWorkerBase ENABLE_WORKERS StepWorker s = None →
     (worker s = WIdle ∧ pending s = []) ∨
     (∃ b mode req, worker s = WRunInMode b mode req ∧ m_killed (runLoop s) = false ∧
                    takeForMode mode (m_messageQueue (runLoop s)) = None) ∨
     (∃ b req, worker s = WCancelLock b req ∧ main_holds (main s) b = true ∧
               is_Some (step webWorkerBase ENABLE_WORKERS StepMain s))).
Proof.
  intros Hrun. apply Inv_run in Hrun as HI. inv_fields HI.
  destruct s as [hp rl mq w pd m tr]; simpl in *.
  assert (∀ bx n mo, EvCreate bx n mo ∈ tr → is_Some (hp !! bx)) as Halloc.
  { intros bx n mo Hc. apply lookup_lt_is_Some. apply (Hev _ Hc). }
  split; intros Hnone.
  - unfold main_step in Hnone; simpl in Hnone.
    destruct m as [|b r mode|b r mode|b].
    + destruct mq as [|[? ? ? ?] ?]; [by left|done].
    + right. destruct Hm as (n & Hn & _). destruct (Halloc _ _ _ Hn) as [br Hbr].
      rewrite Hbr in Hnone; simpl in Hnone. unfold lock in Hnone.
      destruct (m_mutex br) eqn:Emx; [|done].
      pose proof (Hown _ _ Hbr) as Ho. rewrite Emx in Ho. unfold owner in Ho. simpl in Ho.
      destruct (worker_holds w b) eqn:Ewh; [|done].
      exists b, r, mode. split; [done|]. split; [done|].
      destruct w; simpl in Ewh; try done; apply bool_decide_eq_true in Ewh as ->;
        unfold worker_step; simpl; rewrite Hbr; simpl; eauto.
    + exfalso. destruct Hm as (n & Hn & _). destruct (Halloc _ _ _ Hn) as [br Hbr].
      rewrite Hbr in Hnone; simpl in Hnone. unfold signalCompleted_post in Hnone.
      destruct (m_webWorkerBase br); done.
    + exfalso. apply lookup_lt_is_Some in Hm as [br Hbr].
      rewrite Hbr in Hnone; simpl in Hnone. done.
  - unfold worker_step in Hnone; simpl in Hnone.
    destruct w as [|b mode req|b req|b req|b req|b req].
    + destruct pd; [by left|]. destruct ENABLE_WORKERS; done.
    + right; left. exists b, mode, req. split; [done|].
      unfold runInMode in Hnone. destruct (m_killed rl); [done|]. split; [done|].
      destruct (takeForMode mode (m_messageQueue rl)) as [[[b' r'] q']|] eqn:Etake; [|done].
      exfalso. simpl in Hnone. apply takeForMode_elem in Etake as [Hin _].
      destruct (Hq _ _ _ Hin) as (n & Hn & _). destruct (Halloc _ _ _ Hn) as [br Hbr].
      rewrite Hbr in Hnone. done.
    + right; right. destruct (Halloc _ _ _ Hsw) as [br Hbr].
      rewrite Hbr in Hnone; simpl in Hnone. unfold lock in Hnone.
      destruct (m_mutex br) eqn:Emx; [|done].
      pose proof (Hown _ _ Hbr) as Ho. rewrite Emx in Ho. unfold owner in Ho. simpl in Ho.
      destruct (main_holds m b) eqn:Emh; [|done].
      exists b, req. split; [done|]. split; [done|].
      destruct m; simpl in Emh; try done; apply bool_decide_eq_true in Emh as ->;
        unfold main_step, signalCompleted_post; simpl; rewrite Hbr; simpl;
        try destruct (m_webWorkerBase br); eauto.
    + exfalso. destruct (Halloc _ _ _ Hsw) as [br Hbr]. rewrite Hbr in Hnone. done.
    + exfalso. destruct (Halloc _ _ _ Hsw) as [br Hbr]. rewrite Hbr in Hnone. done.
    + exfalso. destruct (Halloc _ _ _ Hsw) as [br Hbr]. rewrite Hbr in Hnone. done.
Qed.

(** *** A parked check can always be completed *)

(** The moves the main thread still has to make to empty its queue. *)
Definition main_work (s : State) : nat :=
  4 * length (mainQueue s) +
  match main s with
  | MIdle => 0
  | MSignalLock _ _ _ => 3
  | MSignalTest _ _ _ => 2
  | MSignalUnlock _ => 1
  end.

Lemma exec_app sched1 sched2 s :
  exec webWorkerBase ENABLE_WORKERS (sched1 ++ sched2) s =
  exec webWorkerBase ENABLE_WORKERS sched1 s ≫= exec webWorkerBase ENABLE_WORKERS sched2.
Proof.
  revert s. induction sched1 as [|l sched1 IH]; intros s; [done|].
  change (exec webWorkerBase ENABLE_WORKERS ((l :: sched1) ++ sched2) s)
    with (step webWorkerBase ENABLE_WORKERS l s
            ≫= exec webWorkerBase ENABLE_WORKERS (sched1 ++ sched2)).
  change (exec webWorkerBase ENABLE_WORKERS (l :: sched1) s)
    with (step webWorkerBase ENABLE_WORKERS l s
            ≫= exec webWorkerBase ENABLE_WORKERS sched1).
  destruct (step webWorkerBase ENABLE_WORKERS l s); simpl; [apply IH|done].
Qed.

Lemma takeForMode_some mode q t :
  (t, mode) ∈ q → is_Some (takeForMode mode q).
Proof.
  induction q as [|[t0 m0] q IH]; intros Hin; [by apply elem_of_nil in Hin|].
  simpl. destruct (decide (m0 = mode)); [eauto|].
  apply elem_of_cons in Hin as [Heq|Hin]; [congruence|].
  destruct (IH Hin) as [[t1 q1] ->]. simpl. eauto.
Qed.

(** While the worker is parked it holds no mutex, so the main thread can
    always make its next move. *)
Lemma main_moves_while_parked s b mode req :
  Inv webWorkerBase id0 s → worker s = WRunInMode b mode req → (0 < main_work s)%nat →
  ∃ s1, step webWorkerBase ENABLE_WORKERS StepMain s = Some s1 ∧
        S (main_work s1) = main_work s ∧ worker s1 = WRunInMode b mode req ∧
        m_killed (runLoop s1) = m_killed (runLoop s).
Proof.
  intros HI Hpc Hwork. inv_fields HI.
  destruct s as [hp rl mq w pd m tr]; unfold main_work in *; simpl in *; subst w.
  unfold main_step; simpl.
  destruct m as [|b1 r1 mode1|b1 r1 mode1|b1].
  - destruct mq as [|[b1 cc n1 mode1] rest]; simpl in *; [lia|].
    eexists; split; [reflexivity|]. simpl. repeat split; lia.
  - destruct Hm as (n & Hn & _). apply Hev in Hn. simpl in Hn.
    apply lookup_lt_is_Some in Hn as [br Hbr]. rewrite Hbr; simpl.
    pose proof (Hown _ _ Hbr) as Ho. unfold owner in Ho. simpl in Ho.
    unfold lock. rewrite Ho. simpl.
    eexists; split; [reflexivity|]. simpl. repeat split; lia.
  - destruct Hm as (n & Hn & _). apply Hev in Hn. simpl in Hn.
    apply lookup_lt_is_Some in Hn as [br Hbr]. rewrite Hbr; simpl.
    unfold signalCompleted_post. destruct (m_webWorkerBase br);
      (eexists; split; [reflexivity|]; simpl; repeat split; lia).
  - apply lookup_lt_is_Some in Hm as [br Hbr]. rewrite Hbr; simpl.
    eexists; split; [reflexivity|]. simpl. repeat split; lia.
Qed.

Lemma main_drains_while_parked n s b mode req :
  main_work s = n → Inv_all webWorkerBase id0 s → worker s = WRunInMode b mode req →
  ∃ s', exec webWorkerBase ENABLE_WORKERS (replicate n StepMain) s = Some s' ∧
        Inv_all webWorkerBase id0 s' ∧ worker s' = WRunInMode b mode req ∧
        m_killed (runLoop s') = m_killed (runLoop s) ∧ main_work s' = 0.
Proof.
  revert s. induction n as [|n IH]; intros s Hn HI Hpc.
  - exists s. simpl. done.
  - destruct (main_moves_while_parked s b mode req) as (s1 & Hs1 & Hw1 & Hpc1 & Hk1);
      [apply HI|assumption|lia|].
    destruct (IH s1) as (s' & Hex & HI' & Hpc' & Hk' & Hz); [lia| |assumption|].
    { eapply Inv_all_step; eassumption. }
    exists s'. split.
    { change (replicate (S n) StepMain) with (StepMain :: replicate n StepMain).
      rewrite (exec_cons _ _ _ _ _ _ Hs1). exact Hex. }
    split; [exact HI'|]. split; [exact Hpc'|]. split; [congruence|exact Hz].
Qed.

(** X10.  A check parked in [runInMode] on a loop that has not been
    terminated can always be brought to its end without terminating the
    loop: the main thread empties its queue, which puts the completion for
    this check into the loop, and two moves of the worker then return
    exactly the client's answer for the name and hand it to the callbacks. *)
Theorem parked_check_completes requests sched s b mode req :
  run webWorkerBase ENABLE_WORKERS id0 requests sched = Some s →
  worker s = WRunInMode b mode req →
  m_killed (runLoop s) = false →
  ∃ more s',
    (Kill ∉ more) ∧
    exec webWorkerBase ENABLE_WORKERS more s = Some s' ∧
    worker s' = WIdle ∧
    EvReturn b (answer webWorkerBase (req_name req)) ∈ trace s' ∧
    EvEffect b (openFromWorker_finish (answer webWorkerBase (req_name req))
                  (req_name req) (req_dataDir req)) ∈ trace s'.
Proof.
  intros Hrun Hpc Hk. apply Inv_all_run in Hrun as HA.
  destruct (main_drains_while_parked (main_work s) s b mode req eq_refl HA Hpc)
    as (s1 & Hex1 & HA1 & Hpc1 & Hk1 & Hz).
  rewrite Hk in Hk1. clear HA Hpc Hk.
  (* the completion is in the loop's queue *)
  assert (∃ s2, step webWorkerBase ENABLE_WORKERS StepWorker s1 = Some s2 ∧
                worker s2 = WResult b req) as (s2 & Hs2 & Hpc2).
  { destruct HA1 as [HI _ [_ _ _ Hwait]]. inv_fields HI.
    destruct (Hwait _ _ _ Hpc1) as [_ Hcnt].
    destruct s1 as [hp rl mq w pd m tr]; unfold main_work, before_post in *; simpl in *.
    subst w. assert (mq = [] ∧ m = MIdle) as [-> ->].
    { destruct mq; [|simpl in Hz; lia]. by destruct m. }
    simpl in Hcnt.
    destruct (count_pos (is_completion_for b) (m_messageQueue rl)) as ([[bq rq] mo] & Hin & Hf);
      [lia|].
    simpl in Hf. apply bool_decide_eq_true in Hf as ->.
    destruct (Hq _ _ _ Hin) as (nq & Hcq & _).
    rewrite (Hcr _ _ _ Hcq), <- (Hcr _ _ _ Hsw) in Hin.
    destruct (takeForMode_some _ _ _ Hin) as [[[bt rt] qt] Htake].
    pose proof (takeForMode_elem _ _ _ _ Htake) as [Hin' _].
    destruct (Hq _ _ _ Hin') as (nt & Hct & _).
    pose proof (Hev _ Hct) as Hlt. simpl in Hlt.
    apply lookup_lt_is_Some in Hlt as [brt Hbrt].
    unfold worker_step, runInMode; simpl. rewrite Hk1, Htake. simpl. rewrite Hbrt. simpl.
    eexists; split; reflexivity. }
  pose proof (Inv_all_step _ _ _ _ _ _ HA1 Hs2) as HA2.
  assert (∃ s3, step webWorkerBase ENABLE_WORKERS StepWorker s2 = Some s3 ∧
                worker s3 = WIdle ∧
                EvReturn b (answer webWorkerBase (req_name req)) ∈ trace s3 ∧
                EvEffect b (openFromWorker_finish (answer webWorkerBase (req_name req))
                              (req_name req) (req_dataDir req)) ∈ trace s3)
    as (s3 & Hs3 & Hpc3 & Hr3 & He3).
  { destruct HA2 as [HI _ _]. inv_fields HI.
    destruct s2 as [hp rl mq w pd m tr]; simpl in *. subst w.
    destruct Hxw as (br & Hbr & Hres'). unfold worker_step; simpl. rewrite Hbr; simpl.
    eexists; split; [reflexivity|]. unfold returnToOpenFromWorker, result. simpl.
    rewrite Hres'. repeat split; mem. }
  exists (replicate (main_work s) StepMain ++ [StepWorker; StepWorker])%list, s3.
  split.
  { intros [Hin|Hin]%elem_of_app; [apply elem_of_replicate in Hin as [? _]; done|].
    elems. }
  split; [|done].
  rewrite exec_app, Hex1.
  change (exec webWorkerBase ENABLE_WORKERS [StepWorker; StepWorker] s1 = Some s3).
  rewrite (exec_cons _ _ _ _ _ _ Hs2), (exec_cons _ _ _ _ _ _ Hs3). done.
Qed.

End Extras.

(** X11.  The three frame based entry points share one policy: each reports
    the denial (code 0, the same message) exactly when a permission client is
    present and refuses, and otherwise forwards the call to the factory with
    the frame and the arguments unchanged.  [open] and [deleteDatabase] ask
    about the database name; [getDatabaseNames] asks about the fixed name
    "Database Listing", so it is refused exactly when [open] of a database of
    that name would be. *)
Theorem frame_entry_points_share_policy
    (permissionClient : option WebPermissionClient) name webFrame dataDir :
  let refused n :=
    match permissionClient with
    | Some client => negb (frameAllowIndexedDB client n)
    | None => false
    end in
  (open permissionClient name webFrame dataDir =
     if refused name then OnError 0 deniedMessage
     else FactoryOpen name (Some webFrame) dataDir) ∧
  (deleteDatabase permissionClient name webFrame dataDir =
     if refused name then OnError 0 deniedMessage
     else FactoryDeleteDatabase name (Some webFrame) dataDir) ∧
  (getDatabaseNames permissionClient webFrame dataDir =
     if refused "Database Listing" then OnError 0 deniedMessage
     else FactoryGetDatabaseNames (Some webFrame) dataDir) ∧
  (open permissionClient name webFrame dataDir = OnError 0 deniedMessage ↔
   deleteDatabase permissionClient name webFrame dataDir = OnError 0 deniedMessage) ∧
  (getDatabaseNames permissionClient webFrame dataDir = OnError 0 deniedMessage ↔
   open permissionClient "Database Listing" webFrame dataDir = OnError 0 deniedMessage).
Proof.
  unfold open, deleteDatabase, getDatabaseNames.
  destruct permissionClient as [client|]; simpl.
  - destruct (frameAllowIndexedDB client name), (frameAllowIndexedDB client "Database Listing");
      simpl; repeat split; done.
  - repeat split; done.
Qed.

(** ** Witnesses of the further properties *)

Lemma mutex_owned_inside_methods_witness :
  ∃ s, run workerWithClient true 0 [inbox] [StepWorker; StepMain; StepMain] = Some s ∧
       heap s !! 0 = Some (Bridge false (Some MainThread) (Some workerWithClient)) ∧
       main s = MSignalTest 0 true "allowIndexedDBMode1" ∧
       main_holds (main s) 0 = true ∧ worker_holds (worker s) 0 = false.
Proof.
  eexists. split; [concrete|]. split; [concrete|]. split; [concrete|].
  destruct (mutex_owned_inside_methods workerWithClient true 0 [inbox]
              [StepWorker; StepMain; StepMain]
              (default (init 0 [])
                 (run workerWithClient true 0 [inbox] [StepWorker; StepMain; StepMain]))
              0 (Bridge false (Some MainThread) (Some workerWithClient)))
    as (_ & Hm & _); [concrete|concrete|].
  split; [apply Hm; reflexivity|reflexivity].
Defined.

Lemma cancelled_bridge_stays_cancelled_witness :
  ∃ s s', run workerWithClient true 0 [inbox]
            [StepWorker; Kill; StepWorker; StepWorker; StepWorker; StepWorker] = Some s ∧
          exec workerWithClient true [StepMain; StepMain; StepMain; StepMain] s = Some s' ∧
          heap s !! 0 = Some (Bridge false None None) ∧
          ∃ br', heap s' !! 0 = Some br' ∧ m_webWorkerBase br' = None.
Proof.
  eexists. eexists. split; [concrete|]. split; [concrete|]. split; [concrete|].
  refine (cancelled_bridge_stays_cancelled workerWithClient true
            [StepMain; StepMain; StepMain; StepMain]
            (default (init 0 [])
               (run workerWithClient true 0 [inbox]
                  [StepWorker; Kill; StepWorker; StepWorker; StepWorker; StepWorker]))
            _ 0 (Bridge false None None) _ _ _);
    concrete.
Defined.

Lemma workers_disabled_inert_witness :
  ∃ s, run workerWithClient false 0 [inbox; outbox] [StepWorker; StepWorker] = Some s ∧
       trace s = [] ∧ heap s = [] ∧ mainQueue s = [] ∧ m_messageQueue (runLoop s) = [] ∧
       worker s = WIdle ∧ main s = MIdle ∧ (length (pending s) ≤ 2)%nat.
Proof.
  eexists. split; [concrete|].
  refine (workers_disabled_inert workerWithClient false 0 [inbox; outbox]
            [StepWorker; StepWorker] _ eq_refl _).
  concrete.
Defined.

Lemma checks_after_teardown_denied_witness :
  ∃ s s', run workerWithClient true 0 [inbox] [StepWorker; StepMain; Kill] = Some s ∧
          m_killed (runLoop s) = true ∧
          (EvWait 0 MessageQueueMessageReceived ∉ trace s) ∧
          exec workerWithClient true [StepWorker; StepWorker; StepWorker; StepWorker] s
            = Some s' ∧
          EvReturn 0 false ∈ trace s' ∧
          EvWait 0 MessageQueueTerminated ∈ trace s'.
Proof.
  eexists. eexists. split; [concrete|]. split; [concrete|].
  assert (EvWait 0 MessageQueueMessageReceived
            ∉ [EvDispatch 0; EvCreate 0 "inbox" "allowIndexedDBMode1"]) as Hnr.
  { intros H. elems. }
  split; [exact Hnr|]. split; [concrete|].
  assert (EvReturn 0 false
            ∈ trace (default (init 0 [])
                       (run workerWithClient true 0 [inbox]
                          [StepWorker; StepMain; Kill; StepWorker; StepWorker;
                           StepWorker; StepWorker]))) as Hr by concrete.
  split; [exact Hr|].
  refine (proj2 (checks_after_teardown_denied workerWithClient true 0 [inbox]
                   [StepWorker; StepMain; Kill]
                   (default (init 0 [])
                      (run workerWithClient true 0 [inbox] [StepWorker; StepMain; Kill]))
                   [StepWorker; StepWorker; StepWorker; StepWorker] _ 0 false
                   _ _ Hnr _ Hr)); concrete.
Defined.

Lemma one_task_one_completion_witness :
  ∃ s, run workerWithClient true 0 [inbox] answered = Some s ∧
       count (is_dispatch 0) (trace s) = 1 ∧ (count (is_post 0) (trace s) ≤ 1)%nat.
Proof.
  eexists. split; [concrete|].
  destruct (one_task_one_completion workerWithClient true 0 [inbox] answered
              (default (init 0 []) (run workerWithClient true 0 [inbox] answered)) 0)
    as (Hd & Hp & _); [concrete|].
  split; [exact Hd|exact Hp].
Defined.

Lemma callbacks_notified_once_witness :
  ∃ s, run workerWithClient true 0 [inbox] answered = Some s ∧
       (count (is_effect 0) (trace s) ≤ 1)%nat ∧
       count (is_return 0) (trace s) = count (is_effect 0) (trace s).
Proof.
  eexists. split; [concrete|].
  destruct (callbacks_notified_once workerWithClient true 0 [inbox] answered
              (default (init 0 []) (run workerWithClient true 0 [inbox] answered)) 0)
    as (He & Hr & _); [concrete|].
  split; [exact He|exact Hr].
Defined.

Lemma result_frozen_after_return_witness :
  ∃ s s', run workerWithClient true 0 [inbox] tornDown = Some s ∧
          m_messageQueue (runLoop s) = [(DidComplete 0 true, "allowIndexedDBMode1")] ∧
          EvReturn 0 false ∈ trace s ∧
          exec workerWithClient true [Kill; Kill] s = Some s' ∧
          heap s !! 0 = Some (Bridge false None None) ∧
          heap s' !! 0 = Some (Bridge false None None) ∧
          m_result (Bridge false None None) = m_result (Bridge false None None).
Proof.
  eexists. eexists. split; [concrete|]. split; [concrete|].
  assert (EvReturn 0 false
            ∈ trace (default (init 0 []) (run workerWithClient true 0 [inbox] tornDown)))
    as Hr by concrete.
  split; [exact Hr|]. split; [concrete|]. split; [concrete|]. split; [concrete|].
  refine (result_frozen_after_return workerWithClient true 0 [inbox] tornDown _
            [Kill; Kill] _ 0 false _ _ _ Hr _ _ _); concrete.
Defined.

Lemma cancelled_bridge_never_written_witness :
  ∃ s, run workerWithClient true 0 [inbox] tornDown = Some s ∧
       heap s !! 0 = Some (Bridge false None None) ∧
       result_writes 0 s = 0 ∧ EvWait 0 MessageQueueTerminated ∈ trace s ∧
       m_killed (runLoop s) = true.
Proof.
  eexists. split; [concrete|]. split; [concrete|].
  refine (proj2 (cancelled_bridge_never_written workerWithClient true 0 [inbox] tornDown _
                   0 (Bridge false None None) _ _ _)); concrete.
Defined.

Lemma refused_moves_witness :
  ∃ s, run workerWithClient true 0 [inbox] [StepWorker] = Some s ∧
       step workerWithClient true StepWorker s = None ∧
       ((worker s = WIdle ∧ pending s = []) ∨
        (∃ b mode req, worker s = WRunInMode b mode req ∧ m_killed (runLoop s) = false ∧
                       takeForMode mode (m_messageQueue (runLoop s)) = None) ∨
        (∃ b req, worker s = WCancelLock b req ∧ main_holds (main s) b = true ∧
                  is_Some (step workerWithClient true StepMain s))).
Proof.
  eexists. split; [concrete|]. split; [concrete|].
  refine (proj2 (refused_moves workerWithClient true 0 [inbox] [StepWorker] _ _) _);
    concrete.
Defined.

Lemma parked_check_completes_witness :
  ∃ s, run workerWithClient true 0 [inbox] [StepWorker] = Some s ∧
       worker s = WRunInMode 0 "allowIndexedDBMode1" inbox ∧
       m_killed (runLoop s) = false ∧
       ∃ more s', (Kill ∉ more) ∧ exec workerWithClient true more s = Some s' ∧
                  worker s' = WIdle ∧
                  EvReturn 0 (answer workerWithClient "inbox") ∈ trace s' ∧
                  EvEffect 0 (openFromWorker_finish (answer workerWithClient "inbox")
                                "inbox" "/idb") ∈ trace s'.
Proof.
  eexists. split; [concrete|]. split; [concrete|]. split; [concrete|].
  refine (parked_check_completes workerWithClient true 0 [inbox] [StepWorker] _
            0 "allowIndexedDBMode1" inbox _ _ _); concrete.
Defined.
